(** * redisboard.admin: the inspection views of [RedisServerAdmin]

    A shallow embedding of [src/redisboard/admin.py]: the permission-gated
    [wrapper] around the inspection views, the two views [inspect] and
    [inspect_key], the connection clean-up callback, and the change list with
    its clean-up; with them the two functions of [urllib.parse] that
    [inspect_key] applies to keys.

    Python objects that the views mutate ([DBInfo] instances, shared between
    the [databases] list and [active]) live in an explicit heap; calls to the
    store, to the renderer and to the connection are recorded in a
    chronological log, so that statements such as "the scanner is not invoked"
    or "the connection is closed after rendering" are statements about that
    log.  Exceptions are outcomes of the monad, with Python's [try]/[finally]. *)

From Stdlib Require Import ZArith String List Lia.
From stdpp Require Import base option list gmap strings.

Local Open Scope string_scope.
Local Open Scope list_scope.
Local Open Scope Z_scope.

(** ** Data *)

Abbreviation bytes := (list Byte.byte).

(** A row of the [RedisServer] model ([label] and [url] are the columns the
    admin class lists and orders by). *)
Record RedisServer := { pk : Z; label : string; url : string }.

Record User := { username : string }.

(** [request.GET] is a [QueryDict]: an ordered multi-map. *)
Abbreviation QueryDict := (list (string * string)).

Record Request := { user : User; GET : QueryDict }.

(** [QueryDict.dict()]: one entry per name, the last value given wins. *)
Definition QueryDict_dict (q : QueryDict) : gmap string string :=
  foldl (λ m kv, <[kv.1 := kv.2]> m) ∅ q.

Module Scan.
(** Modelled from the spec: the [ScanPage] that [display.scan] and
    [display.value] return ([structs.py] is not part of the sources):
    the keys of one scan step, the cursor to resume from and the count. *)
Record t := { keys : list bytes; next_cursor : Z; count : Z }.
End Scan.

Module KeyStats.
(** Modelled from the spec: what [display.keys] reports for one key
    (type, size and time to live of [KeyDetail]). *)
Record t := { name : bytes; type : string; size : Z; ttl : option Z }.
End KeyStats.

(** The [scan] attribute of a [DBInfo] holds first the flag the selector
    sets, later the page the scanner returned. *)
Inductive ScanSlot :=
| Flag (b : bool)
| Page (p : Scan.t).

Module DBInfo.
(** Modelled from the spec: [DBInfo] ([DatabaseSummary]; [structs.py] is not
    part of the sources).  [DBInfo(id, details, scan=...)] with [scan]
    defaulting to false and [cursor] unset until the view assigns it. *)
Record t := { id : Z; details : gmap string Z; scan : ScanSlot; cursor : option Z }.

Definition new (id : Z) (details : gmap string Z) (scan : ScanSlot) : t :=
  {| id := id; details := details; scan := scan; cursor := None |}.

Definition default_scan : ScanSlot := Flag false.

Definition set_scan (s : ScanSlot) (d : t) : t :=
  {| id := id d; details := details d; scan := s; cursor := cursor d |}.

Definition set_cursor (c : Z) (d : t) : t :=
  {| id := id d; details := details d; scan := scan d; cursor := Some c |}.
End DBInfo.

(** Python truth value of the [scan] attribute ([if dbinfo.scan:]); a page is
    a plain object. *)
Definition truthy (s : ScanSlot) : bool :=
  match s with
  | Flag b => b
  | Page _ => true
  end.

Definition scan_enabled (d : DBInfo.t) : bool := truthy (DBInfo.scan d).

Module Stats.
(** Modelled from the spec: the [stats] of a server.  [available] is the
    truth value of the object ([if stats:]), [databases] the
    insertion-ordered dictionary from database id to its details. *)
Record t := { available : bool; status : string;
              databases : list (Z * gmap string Z) }.
End Stats.

(** [details.get('keys', 0)] *)
Definition keys_of (details : gmap string Z) : Z := default 0 (details !! "keys").

(** [db in stats.databases] and [stats.databases[db]] *)
Fixpoint dict_get {V} (db : Z) (d : list (Z * V)) : option V :=
  match d with
  | [] => None
  | (k, v) :: d => if decide (k = db) then Some v else dict_get db d
  end.

(** ** Responses

    The context of each template, entry by entry.  The constant entries
    (['site_header': None], ['opts'] and ['media': '']) are the same in every
    response and are left out. *)

Record InspectContext := {
  ctx_databases : list DBInfo.t;
  ctx_display : RedisServer;
  ctx_original : RedisServer;
  ctx_stats : Stats.t;
  ctx_active : option DBInfo.t;
  ctx_filters : string;
}.

Record InspectKeyContext := {
  ctx_key : string;
  ctx_encoded_key : string;
  ctx_key_stats : list KeyStats.t;
  ctx_count : Z;
  ctx_scan : Scan.t;
  ctx_db_id : Z;
  ctx_db_cursor : Z;
  ctx_key_original : RedisServer;
}.

Inductive Context :=
| InspectCtx (c : InspectContext)
| InspectKeyCtx (c : InspectKeyContext).

(** What [partial(cleanup_connection, connection=...)] was given as its
    [connection]: the connection object, or its bound method [close]. *)
Inductive PyObject :=
| Connection
| Connection_close.

Inductive Callback :=
| partial_cleanup_connection (connection : PyObject).

Inductive Response :=
| HttpResponse (template : string) (context : Context)
    (* [render(request, template, context)]: content already rendered *)
| HttpResponseForbidden (content : string)
| HttpResponseNotFound (content : string)
| TemplateResponse (template : string) (context : Context)
    (is_rendered : bool) (post_render_callbacks : list Callback).

Definition isinstance_TemplateResponse (r : Response) : bool :=
  match r with
  | TemplateResponse _ _ _ _ => true
  | _ => false
  end.

(** ** The world of one request *)

Inductive Event :=
| EvConnect (server : RedisServer)          (* [server.connection] is created *)
| EvClose                                   (* [connection.close()] *)
| EvExists (key : bytes)                    (* [connection.exists(key)] *)
| EvKeys (db : Z) (keys : list bytes)       (* [display.keys(db, keys)] *)
| EvValue (db : Z) (key : bytes) (cursor count : Z)
| EvScan (db : Z) (cursor : Z) (filters : gmap string string)
| EvRender (template : string).             (* a template is rendered *)

Inductive ConnState := Absent | Live | Closed.

Abbreviation ref := nat (only parsing).

Record World := {
  log : list Event;
  conn : ConnState;
  heap : list DBInfo.t;
}.

Definition World0 : World := {| log := []; conn := Absent; heap := [] |}.

Inductive Exn :=
| Http404
| TypeError (msg : string)
| AttributeError (msg : string)
| KeyError (key : string)
| ReferenceError.

Inductive Outcome (A : Type) :=
| Returns (a : A)
| Raises (e : Exn).
Arguments Returns {A} a.
Arguments Raises {A} e.

(** ** The monad of views: state and exceptions *)

Definition M (A : Type) : Type := World → Outcome A * World.

#[global] Instance M_ret : MRet M := λ A a w, (Returns a, w).

#[global] Instance M_bind : MBind M := λ A B f c w,
  match c w with
  | (Returns a, w') => f a w'
  | (Raises e, w') => (Raises e, w')
  end.

Definition raise {A} (e : Exn) : M A := λ w, (Raises e, w).

(** [try: body finally: fin]: [fin] runs however [body] ends; an exception
    of [fin] replaces the outcome of [body]. *)
Definition try_finally {A} (body : M A) (fin : M unit) : M A := λ w,
  let '(out, w1) := body w in
  match fin w1 with
  | (Returns _, w2) => (out, w2)
  | (Raises e, w2) => (Raises e, w2)
  end.

Definition with_log (l : list Event) (w : World) : World :=
  {| log := l; conn := conn w; heap := heap w |}.
Definition with_conn (c : ConnState) (w : World) : World :=
  {| log := log w; conn := c; heap := heap w |}.
Definition with_heap (h : list DBInfo.t) (w : World) : World :=
  {| log := log w; conn := conn w; heap := h |}.

Definition emit (e : Event) : M unit := λ w,
  (Returns tt, with_log (log w ++ [e]) w).

Definition set_conn (c : ConnState) : M unit := λ w,
  (Returns tt, with_conn c w).

(** Object allocation, attribute read and attribute assignment. *)
Definition alloc (d : DBInfo.t) : M ref := λ w,
  (Returns (length (heap w)), with_heap (heap w ++ [d]) w).

Definition load (r : ref) : M DBInfo.t := λ w,
  match heap w !! r with
  | Some d => (Returns d, w)
  | None => (Raises ReferenceError, w)
  end.

Definition store (r : ref) (f : DBInfo.t → DBInfo.t) : M unit := λ w,
  (Returns tt, with_heap (alter f r (heap w)) w).

(** [for x in l: body(x)] *)
Fixpoint for_each {A} (l : list A) (body : A → M unit) : M unit :=
  match l with
  | [] => mret tt
  | x :: l => body x ;; for_each l body
  end.

(** ** Collaborators

    What the views consume and do not define: the settings constant, the
    model manager, the framework's permission checks, the replies of the store
    through [server.connection] and [server.display], and the URL helpers.
    [scan_takes] says which names the method [display.scan] can be given as
    keyword arguments beside [cursor]; its signature is not in the sources. *)
Class Collaborators := {
  REDISBOARD_SCAN_COUNT : Z;
  objects_get : Z → option RedisServer;
  has_view_permission : Request → RedisServer → bool;
  has_perm : User → string → bool;
  server_stats : RedisServer → Stats.t;
  connection_exists : RedisServer → bytes → bool;
  display_keys : RedisServer → Z → list bytes → list KeyStats.t;
  display_value : RedisServer → Z → bytes → Z → Z → Scan.t;
  display_scan : RedisServer → Z → Z → gmap string string → Scan.t;
  scan_takes : string → bool;
  decoder_key : RedisServer → bytes → string;
  unquote_to_bytes : string → bytes;
  quote : bytes → string;
  urlencode : QueryDict → string;
}.

Section Admin.
Context {site : Collaborators}.

(** [get_object_or_404(RedisServer, id=server_id)] *)
Definition get_object_or_404 (server_id : Z) : M RedisServer :=
  match objects_get server_id with
  | Some server => mret server
  | None => raise Http404
  end.

(** Modelled from the spec: [server.connection], the single connection of
    the request, created on first use and cached on the server object
    ([models.py] is not part of the sources). *)
Definition server_connection (server : RedisServer) : M PyObject := λ w,
  match conn w with
  | Absent => (emit (EvConnect server) ;; set_conn Live ;; mret Connection) w
  | _ => (Returns Connection, w)
  end.

(** What that access adds to the log. *)
Definition connect_events (w : World) (server : RedisServer) : list Event :=
  match conn w with
  | Absent => [EvConnect server]
  | _ => []
  end.

(** [connection.close()] *)
Definition connection_close : M unit :=
  emit EvClose ;; set_conn Closed.

(** [getattr(obj, 'close')()]: the connection has a [close] method, its
    bound method [close] has no attribute of that name. *)
Definition call_close (obj : PyObject) : M unit :=
  match obj with
  | Connection => connection_close
  | Connection_close => raise (AttributeError "close")
  end.

(** [cleanup_connection(response, connection)] *)
Definition cleanup_connection (response : Response) (connection : PyObject) : M unit :=
  call_close connection.

(** [render(request, template_name, context)]: renders at once. *)
Definition render (request : Request) (template : string) (context : Context) : M Response :=
  emit (EvRender template) ;; mret (HttpResponse template context).

(** What Python makes of the arguments of
    [server.display.scan(id, cursor=cursor, **kwargs)] before the scanner is
    entered.  A name in [kwargs] that repeats the explicit keyword [cursor]
    is rejected first, by the call itself and whatever the scanner is.  The
    other names are then bound to the parameters of the scanner, and a name
    it does not take is rejected: one that a positional argument has filled
    already ([self], the parameter of the database id), or one the scanner
    has no parameter for.  Python's message names the keyword and says which
    of the two it is; here one message stands for both.  The call without
    further keywords, [scan(id, cursor=cursor)], is the one the scanner is
    written for and is accepted. *)
Definition scan_call_error (kwargs : gmap string string) : option Exn :=
  if decide (is_Some (kwargs !! "cursor"))
  then Some (TypeError "got multiple values for keyword argument 'cursor'")
  else if decide (map_Forall (λ name _, scan_takes name = true) kwargs)
  then None
  else Some (TypeError "scan() got a keyword argument it does not take").

(** [server.display.scan(id, cursor=cursor, **kwargs)] *)
Definition call_display_scan (server : RedisServer) (id cursor : Z)
    (kwargs : gmap string string) : M Scan.t :=
  match scan_call_error kwargs with
  | Some e => raise e
  | None => emit (EvScan id cursor kwargs) ;; mret (display_scan server id cursor kwargs)
  end.

(** [sum(details.get('keys', 0) for details in stats.databases.values())] *)
Definition total_keys (databases : list (Z * gmap string Z)) : Z :=
  foldl (λ acc item, acc + keys_of item.2) 0 databases.

(** Lines 193-203 of [inspect]: which databases are shown, and which of
    them are to be scanned. *)
Definition select_databases (stats : Stats.t) (db : option Z) : M (option ref * list ref) :=
  let total_keys := total_keys (Stats.databases stats) in
  match db with
  | Some db =>
      active ← match dict_get db (Stats.databases stats) with
               | Some details => alloc (DBInfo.new db details (Flag true))
               | None => alloc (DBInfo.new db {[ "keys" := 0 ]} (Flag true))
               end;
      mret (Some active, [active])
  | None =>
      if bool_decide (total_keys < REDISBOARD_SCAN_COUNT)
      then databases ← mapM (λ item, alloc (DBInfo.new item.1 item.2 (Flag true)))
                            (Stats.databases stats);
           mret (None, databases)
      else databases ← mapM (λ item, alloc (DBInfo.new item.1 item.2 DBInfo.default_scan))
                            (Stats.databases stats);
           mret (None, databases)
  end.

(** The body of the loop of lines 205-208 of [inspect]. *)
Definition scan_database (request : Request) (server : RedisServer) (cursor : Z)
    (dbinfo : ref) : M unit :=
  d ← load dbinfo;
  if truthy (DBInfo.scan d)
  then page ← call_display_scan server (DBInfo.id d) cursor (QueryDict_dict (GET request));
       store dbinfo (DBInfo.set_scan (Page page)) ;;
       store dbinfo (DBInfo.set_cursor cursor)
  else mret tt.

(** Lines 205-208 of [inspect]. *)
Definition scan_databases (request : Request) (server : RedisServer) (cursor : Z)
    (databases : list ref) : M unit :=
  for_each databases (scan_database request server cursor).

(** [f'?{request.GET.urlencode()}' if request.GET else ''] *)
Definition filters_of (request : Request) : string :=
  match GET request with
  | [] => ""
  | _ => String.append "?" (urlencode (GET request))
  end.

(** [RedisServerAdmin.inspect] *)
Definition inspect (request : Request) (server : RedisServer)
    (db : option Z) (cursor : Z) : M Response :=
  let stats := server_stats server in
  '(active, databases) ←
    (if Stats.available stats
     then '(active, databases) ← select_databases stats db;
          scan_databases request server cursor databases ;;
          mret (active, databases)
     else mret (None, []));
  shown ← mapM load databases;
  shown_active ← match active with
                 | Some r => d ← load r; mret (Some d)
                 | None => mret None
                 end;
  render request "redisboard/inspect.html"
    (InspectCtx {| ctx_databases := shown;
                   ctx_display := server;
                   ctx_original := server;
                   ctx_stats := stats;
                   ctx_active := shown_active;
                   ctx_filters := filters_of request |}).

(** [RedisServerAdmin.inspect_key] *)
Definition inspect_key (request : Request) (server : RedisServer)
    (db : Z) (key : string) (cursor count : Z) : M Response :=
  let key := unquote_to_bytes key in
  connection ← server_connection server;
  found ← (emit (EvExists key) ;; mret (connection_exists server key));
  if negb found
  then mret (HttpResponseNotFound "Key is gone.")
  else
    stats ← (emit (EvKeys db [key]) ;; mret (display_keys server db [key]));
    scan ← (emit (EvValue db key cursor count) ;;
            mret (display_value server db key cursor count));
    render request "redisboard/inspect_key.html"
      (InspectKeyCtx {| ctx_key := decoder_key server key;
                        ctx_encoded_key := quote key;
                        ctx_key_stats := stats;
                        ctx_count := Scan.count scan + count;
                        ctx_scan := scan;
                        ctx_db_id := db;
                        ctx_db_cursor := cursor;
                        ctx_key_original := server |}).

(** The keyword arguments a route captures from the URL. *)
Record Kwargs := {
  kw_db : option Z;
  kw_key : option string;
  kw_cursor : option Z;
  kw_count : option Z;
}.

Definition View := Request → RedisServer → Kwargs → M Response.

(** [self.inspect(request, server, **kwargs)]: [db] defaults to [None],
    [cursor] to 0; the function takes no [key] and no [count]. *)
Definition inspect_view : View := λ request server kwargs,
  match kw_key kwargs, kw_count kwargs with
  | None, None => inspect request server (kw_db kwargs) (default 0 (kw_cursor kwargs))
  | _, _ => raise (TypeError "inspect() got an unexpected keyword argument")
  end.

(** [self.inspect_key(request, server, **kwargs)]: [db] and [key] are
    required, [cursor] and [count] default to 0. *)
Definition inspect_key_view : View := λ request server kwargs,
  match kw_db kwargs, kw_key kwargs with
  | Some db, Some key =>
      inspect_key request server db key
        (default 0 (kw_cursor kwargs)) (default 0 (kw_count kwargs))
  | _, _ => raise (TypeError "inspect_key() missing a required argument")
  end.

(** [response.add_post_render_callback(callback)]: run at once on a
    response that is already rendered, queued otherwise. *)
Definition add_post_render_callback (response : Response) (callback : Callback) : M Response :=
  match response with
  | TemplateResponse template context true callbacks =>
      match callback with
      | partial_cleanup_connection connection =>
          cleanup_connection response connection ;; mret response
      end
  | TemplateResponse template context false callbacks =>
      mret (TemplateResponse template context false (callbacks ++ [callback]))
  | _ => mret response
  end.

(** The permission gate of [wrapper]. *)
Definition may_inspect (request : Request) (server : RedisServer) : bool :=
  has_view_permission request server && has_perm (user request) "redisboard.can_inspect".

(** The function [wrapper(request, server_id, **kwargs)] that [wrap(view)]
    builds around [view].  The decorator [admin_site.admin_view] around it is
    the login check of the admin site, done before this function is
    entered. *)
Definition wrapper (view : View) (request : Request) (server_id : Z)
    (kwargs : Kwargs) : M Response :=
  server ← get_object_or_404 server_id;
  if may_inspect request server
  then
    connection ← server_connection server;
    try_finally
      (response ← view request server kwargs;
       if isinstance_TemplateResponse response
       then add_post_render_callback response (partial_cleanup_connection Connection_close)
       else mret response)
      (call_close connection)
  else mret (HttpResponseForbidden "You can't inspect this server.").

(** [wrap(view)] *)
Definition wrap (view : View) : Request → Z → Kwargs → M Response :=
  wrapper view.

End Admin.

(** ** Routes ([get_urls])

    The six paths the class adds, each with what its converters captured. *)

Inductive Route :=
| inspect_route
| inspect_db_route (db : Z)
| key_route (db : Z) (key : string)
| inspect_db_cursor_route (db cursor : Z)
| key_cursor_route (db cursor : Z) (key : string)
| key_cursor_count_route (db cursor count : Z) (key : string).

Definition route_pattern (r : Route) : string :=
  match r with
  | inspect_route => "<int:server_id>/inspect/"
  | inspect_db_route _ => "<int:server_id>/inspect/<int:db>/"
  | key_route _ _ => "<int:server_id>/inspect/<int:db>/key/<path:key>/"
  | inspect_db_cursor_route _ _ => "<int:server_id>/inspect/<int:db>/<int:cursor>/"
  | key_cursor_route _ _ _ =>
      "<int:server_id>/inspect/<int:db>/<int:cursor>/key/<path:key>/"
  | key_cursor_count_route _ _ _ _ =>
      "<int:server_id>/inspect/<int:db>/<int:cursor>/<int:count>/key/<path:key>/"
  end.

Section Urls.
Context {site : Collaborators}.

Definition route_view (r : Route) : View :=
  match r with
  | inspect_route | inspect_db_route _ | inspect_db_cursor_route _ _ => inspect_view
  | key_route _ _ | key_cursor_route _ _ _ | key_cursor_count_route _ _ _ _ => inspect_key_view
  end.

Definition route_kwargs (r : Route) : Kwargs :=
  match r with
  | inspect_route =>
      {| kw_db := None; kw_key := None; kw_cursor := None; kw_count := None |}
  | inspect_db_route db =>
      {| kw_db := Some db; kw_key := None; kw_cursor := None; kw_count := None |}
  | key_route db key =>
      {| kw_db := Some db; kw_key := Some key; kw_cursor := None; kw_count := None |}
  | inspect_db_cursor_route db cursor =>
      {| kw_db := Some db; kw_key := None; kw_cursor := Some cursor; kw_count := None |}
  | key_cursor_route db cursor key =>
      {| kw_db := Some db; kw_key := Some key; kw_cursor := Some cursor; kw_count := None |}
  | key_cursor_count_route db cursor count key =>
      {| kw_db := Some db; kw_key := Some key; kw_cursor := Some cursor;
         kw_count := Some count |}
  end.

(** The function a request to route [r] reaches. *)
Definition dispatch (r : Route) (request : Request) (server_id : Z) : M Response :=
  wrap (route_view r) request server_id (route_kwargs r).

End Urls.

(** ** Deferred rendering *)

(** [response.render()], as the framework calls it on the response a view
    returned: a response that is not rendered yet renders its template and
    then runs the queued callbacks in order. *)
Definition response_render (response : Response) : M Response :=
  match response with
  | TemplateResponse template context false callbacks =>
      emit (EvRender template) ;;
      for_each callbacks (λ callback,
        match callback with
        | partial_cleanup_connection connection => cleanup_connection response connection
        end) ;;
      mret (TemplateResponse template context true callbacks)
  | _ => mret response
  end.

(** The template a route renders. *)
Definition route_template (r : Route) : string :=
  match r with
  | inspect_route | inspect_db_route _ | inspect_db_cursor_route _ _ =>
      "redisboard/inspect.html"
  | key_route _ _ | key_cursor_route _ _ _ | key_cursor_count_route _ _ _ _ =>
      "redisboard/inspect_key.html"
  end.

(** ** Percent-encoding of keys

    [urllib.parse.unquote_to_bytes] and [urllib.parse.quote], which
    [inspect_key] applies to the key of the route and to the key it shows.
    A Python [str] is held as the bytes of its UTF-8 encoding, which is what
    both functions work on. *)
Module Urllib.

Definition percent : Byte.byte := Byte.x25.
Definition slash : Byte.byte := Byte.x2f.

Definition in_range (lo hi : N) (b : Byte.byte) : bool :=
  ((lo <=? Byte.to_N b) && (Byte.to_N b <=? hi))%N.

(** The value of one of [_hexdig = '0123456789ABCDEFabcdef']. *)
Definition hexval (b : Byte.byte) : option N :=
  if in_range 48 57 b then Some (Byte.to_N b - 48)%N
  else if in_range 65 70 b then Some (Byte.to_N b - 55)%N
  else if in_range 97 102 b then Some (Byte.to_N b - 87)%N
  else None.

(** [_hextobyte[item[:2]]]; [None] is the [KeyError] of an [item] that does
    not start with two hexadecimal digits. *)
Definition hextobyte (item : bytes) : option Byte.byte :=
  match item with
  | a :: b :: _ =>
      match hexval a, hexval b with
      | Some x, Some y => Byte.of_N (16 * x + y)
      | _, _ => None
      end
  | _ => None
  end.

(** [string.split(sep)] for a separator of one byte: never empty. *)
Fixpoint split (sep : Byte.byte) (s : bytes) : list bytes :=
  match s with
  | [] => [[]]
  | c :: s =>
      if Byte.eqb c sep then [] :: split sep s
      else match split sep s with
           | bit :: bits => (c :: bit) :: bits
           | [] => [[c]]
           end
  end.

(** The body of the loop of [_unquote_impl]: what one [item] appends. *)
Definition unquote_item (res item : bytes) : bytes :=
  match hextobyte item with
  | Some b => res ++ [b] ++ drop 2 item
  | None => res ++ [percent] ++ item
  end.

(** [_unquote_impl] on bytes. *)
Definition unquote_impl (string : bytes) : bytes :=
  match split percent string with
  | [] | [_] => string
  | bit :: items => foldl unquote_item bit items
  end.

(** [unquote_to_bytes(string)] for a [str]. *)
Definition unquote_to_bytes (string : String.string) : bytes :=
  unquote_impl (list_byte_of_string string).

(** [_ALWAYS_SAFE]: letters, digits and [_.-~]. *)
Definition always_safe (b : Byte.byte) : bool :=
  in_range 65 90 b || in_range 97 122 b || in_range 48 57 b
  || Byte.eqb b Byte.x5f || Byte.eqb b Byte.x2e || Byte.eqb b Byte.x2d
  || Byte.eqb b Byte.x7e.

(** With the default [safe='/']. *)
Definition safe (b : Byte.byte) : bool := always_safe b || Byte.eqb b slash.

(** One digit of ['%{:02X}'.format(b)]. *)
Definition hexdigit (n : N) : Byte.byte :=
  default Byte.x30 (Byte.of_N (if (n <? 10)%N then n + 48 else n + 55)%N).

(** [_Quoter.__missing__(b)] *)
Definition quoter (b : Byte.byte) : bytes :=
  if safe b then [b]
  else [percent; hexdigit (Byte.to_N b / 16); hexdigit (Byte.to_N b mod 16)].

(** [quote_from_bytes(bs, safe='/')] *)
Definition quote_from_bytes (bs : bytes) : String.string :=
  match bs with
  | [] => ""
  | _ => if forallb safe bs then string_of_list_byte bs
         else string_of_list_byte (concat (quoter <$> bs))
  end.

(** [quote(string)] for [bytes]. *)
Definition quote (string : bytes) : String.string := quote_from_bytes string.

End Urllib.

(** ** The list of servers ([changelist_view])

    The change list holds many server objects, each with a connection of its
    own.  An object is a row together with the world of its connection:
    [conn] is [Absent] as long as ['connection'] is not in the [__dict__] of
    the object. *)

Record ServerObject := { instance : RedisServer; instance_world : World }.

(** [obj.__dict__.get('connection')]: the cached connection, or [None];
    looking it up in the dictionary does not create it. *)
Definition dict_get_connection (obj : ServerObject) : option PyObject :=
  match conn (instance_world obj) with
  | Absent => None
  | Live | Closed => Some Connection
  end.

(** The body of the loop of [cleanup_changelist_response]; a connection
    object is true. *)
Definition cleanup_object (obj : ServerObject) : Outcome unit * ServerObject :=
  match dict_get_connection obj with
  | Some connection =>
      let '(out, w) := call_close connection (instance_world obj) in
      (out, {| instance := instance obj; instance_world := w |})
  | None => (Returns tt, obj)
  end.

(** [cleanup_changelist_response(response)], on the objects that
    [response.context_data['cl'].queryset] yields. *)
Fixpoint cleanup_changelist_response (queryset : list ServerObject)
    : Outcome unit * list ServerObject :=
  match queryset with
  | [] => (Returns tt, [])
  | obj :: queryset =>
      match cleanup_object obj with
      | (Returns _, obj) =>
          let '(out, queryset) := cleanup_changelist_response queryset in
          (out, obj :: queryset)
      | (Raises e, obj) => (Raises e, obj :: queryset)
      end
  end.

(** The change list ['cl'] of the context.  The template renders the
    objects of [result_list]; [queryset] is the query they were taken from,
    which is run again when it is iterated and yields the rows it finds as
    new objects. *)
Record ChangeList := { result_list : list ServerObject; queryset : list RedisServer }.

(** An object as the query builds it: nothing is cached in its [__dict__]. *)
Definition from_db (row : RedisServer) : ServerObject :=
  {| instance := row; instance_world := World0 |}.

(** [cleanup_changelist_response(response)] as a callback of the response
    whose context holds the change list [cl], if any:
    [response.context_data['cl']] raises [KeyError] without one.  With it are
    returned the objects the clean-up went through, as it left them. *)
Definition call_cleanup_changelist_response (cl : option ChangeList)
    : Outcome unit * list ServerObject :=
  match cl with
  | Some cl => cleanup_changelist_response (from_db <$> queryset cl)
  | None => (Raises (KeyError "cl"), [])
  end.

(** The one callback the class queues. *)
Inductive ChangelistCallback := cleanup_changelist_response_callback.

(** What the view of the parent class returns: a template response, of the
    change list or of another page of the admin (the confirmation of an
    action has no ['cl'] in its context), with the callbacks queued on it; or
    any other response (a redirect). *)
Inductive ChangelistResponse :=
| ChangelistTemplateResponse (cl : option ChangeList) (is_rendered : bool)
    (post_render_callbacks : list ChangelistCallback)
| ChangelistOtherResponse (content : string).

(** [for callback in callbacks: callback(response)] *)
Fixpoint run_changelist_callbacks (callbacks : list ChangelistCallback)
    (cl : option ChangeList) : Outcome unit :=
  match callbacks with
  | [] => Returns tt
  | cleanup_changelist_response_callback :: callbacks =>
      match call_cleanup_changelist_response cl with
      | (Returns _, _) => run_changelist_callbacks callbacks cl
      | (Raises e, _) => Raises e
      end
  end.

(** [RedisServerAdmin.changelist_view], given what the view of the parent
    class returned; a callback added to a response that is rendered already
    is run at once. *)
Definition changelist_view (super_changelist_view : Request → ChangelistResponse)
    (request : Request) : Outcome ChangelistResponse :=
  let response := super_changelist_view request in
  match response with
  | ChangelistTemplateResponse cl true callbacks =>
      match call_cleanup_changelist_response cl with
      | (Returns _, _) => Returns response
      | (Raises e, _) => Raises e
      end
  | ChangelistTemplateResponse cl false callbacks =>
      Returns (ChangelistTemplateResponse cl false
                 (callbacks ++ [cleanup_changelist_response_callback]))
  | ChangelistOtherResponse _ => Returns response
  end.

(** [response.render()] on the response of the change list: rendering the
    rows does to the objects of [result_list] whatever [render_rows] says
    (the columns read the stats of each server, through its connection),
    then the callbacks run. *)
Definition changelist_render (render_rows : list ServerObject → list ServerObject)
    (response : ChangelistResponse) : Outcome ChangelistResponse :=
  match response with
  | ChangelistTemplateResponse cl false callbacks =>
      let cl := (λ cl, {| result_list := render_rows (result_list cl);
                          queryset := queryset cl |}) <$> cl in
      match run_changelist_callbacks callbacks cl with
      | Returns _ => Returns (ChangelistTemplateResponse cl true callbacks)
      | Raises e => Raises e
      end
  | _ => Returns response
  end.

(** What the clean-up does to one object. *)
Definition cleaned (obj obj' : ServerObject) : Prop :=
  instance obj' = instance obj
  ∧ heap (instance_world obj') = heap (instance_world obj)
  ∧ match conn (instance_world obj) with
    | Absent => obj' = obj
    | Live | Closed =>
        conn (instance_world obj') = Closed
        ∧ log (instance_world obj') = log (instance_world obj) ++ [EvClose]
    end.

(** ** Reference values

    What the runs below are compared with: the objects the selector builds,
    what the loop makes of them, and the worlds before and after the wrapped
    view. *)

(** The references [refs] denote the objects [ds] in the heap of [w]. *)
Definition denotes (w : World) (refs : list ref) (ds : list DBInfo.t) : Prop :=
  Forall2 (λ r d, heap w !! r = Some d) refs ds.

(** The object [select_databases] builds for an explicit database. *)
Definition selected_one (stats : Stats.t) (db : Z) : DBInfo.t :=
  DBInfo.new db (default {[ "keys" := 0 ]} (dict_get db (Stats.databases stats))) (Flag true).

(** The scanner calls of that loop. *)
Definition scan_events (cursor : Z) (kwargs : gmap string string)
    (ds : list DBInfo.t) : list Event :=
  (λ d, EvScan (DBInfo.id d) cursor kwargs) <$> filter (λ d, scan_enabled d = true) ds.

(** The world once [connection.close()] has run. *)
Definition closed (w : World) : World :=
  with_conn Closed (with_log (log w ++ [EvClose]) w).

Section Reference.
Context {site : Collaborators}.

(** The objects [select_databases] builds, in order. *)
Definition selected (stats : Stats.t) (db : option Z) : list DBInfo.t :=
  match db with
  | Some db => [selected_one stats db]
  | None =>
      (λ item, DBInfo.new item.1 item.2
         (Flag (bool_decide (total_keys (Stats.databases stats) < REDISBOARD_SCAN_COUNT))))
      <$> Stats.databases stats
  end.

(** What the loop of [inspect] leaves of a summary. *)
Definition scanned (server : RedisServer) (cursor : Z) (kwargs : gmap string string)
    (d : DBInfo.t) : DBInfo.t :=
  if truthy (DBInfo.scan d)
  then DBInfo.set_cursor cursor
         (DBInfo.set_scan (Page (display_scan server (DBInfo.id d) cursor kwargs)) d)
  else d.

(** The context [inspect] renders when every call of the scanner is accepted. *)
Definition inspect_context (request : Request) (server : RedisServer)
    (db : option Z) (cursor : Z) : InspectContext :=
  let stats := server_stats server in
  let kwargs := QueryDict_dict (GET request) in
  {| ctx_databases := scanned server cursor kwargs <$> selected stats db;
     ctx_display := server;
     ctx_original := server;
     ctx_stats := stats;
     ctx_active := (λ db, scanned server cursor kwargs (selected_one stats db)) <$> db;
     ctx_filters := filters_of request |}.

(** The world once [server.connection] has been read. *)
Definition connected (server : RedisServer) (w : World) : World :=
  (server_connection server w).2.

End Reference.

(** The responses the two views of the class produce, and the invariant
    they keep: the log only grows, and no view closes the connection. *)
Definition eager (r : Response) : Prop :=
  match r with
  | HttpResponse _ _ | HttpResponseNotFound _ => True
  | HttpResponseForbidden _ | TemplateResponse _ _ _ _ => False
  end.

Definition view_inv {A} (P : A → Prop) (c : M A) : Prop :=
  ∀ w, (∃ l, log (c w).2 = log w ++ l ∧ Forall (λ e, e ≠ EvClose) l)
       ∧ match (c w).1 with
         | Returns a => P a
         | Raises _ => True
         end.

Definition anything {A} : A → Prop := λ _, True.

(** ** A concrete deployment, to run the views on *)

Module Demo.
Definition server1 : RedisServer := {| pk := 1; label := "cache"; url := "redis://localhost" |}.
Definition admin : User := {| username := "admin" |}.
Definition guest : User := {| username := "guest" |}.

Definition keys (n : Z) : gmap string Z := {[ "keys" := n ]}.

(** Two databases holding 50 and 30 keys. *)
Definition small : Stats.t :=
  {| Stats.available := true; Stats.status := "UP";
     Stats.databases := [(0, keys 50); (1, keys 30)] |}.

(** The same 80 keys, all in one database. *)
Definition skewed : Stats.t :=
  {| Stats.available := true; Stats.status := "UP";
     Stats.databases := [(0, keys 80); (1, keys 0)] |}.

(** Two databases holding 500 and 700 keys. *)
Definition large : Stats.t :=
  {| Stats.available := true; Stats.status := "UP";
     Stats.databases := [(0, keys 500); (1, keys 700)] |}.

(** One database holding 10 keys. *)
Definition single : Stats.t :=
  {| Stats.available := true; Stats.status := "UP";
     Stats.databases := [(0, keys 10)] |}.

(** The store cannot be reached. *)
Definition down : Stats.t :=
  {| Stats.available := false; Stats.status := "DOWN"; Stats.databases := [] |}.

Definition page (db cursor : Z) : Scan.t :=
  {| Scan.keys := [list_byte_of_string "present"]; Scan.next_cursor := 0;
     Scan.count := 1 |}.

(** The scanner of this deployment takes one filter, the pattern [match]. *)
#[local] Instance deployment (stats : Stats.t) : Collaborators := {|
  REDISBOARD_SCAN_COUNT := 100;
  objects_get := λ server_id, if decide (server_id = 1) then Some server1 else None;
  has_view_permission := λ request server,
    bool_decide (username (user request) = "admin");
  has_perm := λ user perm,
    bool_decide (username user = "admin") && bool_decide (perm = "redisboard.can_inspect");
  server_stats := λ _, stats;
  connection_exists := λ _ key, bool_decide (string_of_list_byte key = "present");
  display_keys := λ _ db keys,
    (λ k, {| KeyStats.name := k; KeyStats.type := "list"; KeyStats.size := 7;
             KeyStats.ttl := None |}) <$> keys;
  display_value := λ _ db key cursor count,
    {| Scan.keys := [key]; Scan.next_cursor := 0; Scan.count := 7 |};
  display_scan := λ _ db cursor filters, page db cursor;
  scan_takes := λ name, bool_decide (name = "match");
  decoder_key := λ _ key, string_of_list_byte key;
  unquote_to_bytes := list_byte_of_string;
  quote := string_of_list_byte;
  urlencode := λ q, String.concat "&" ((λ kv, String.append kv.1 (String.append "=" kv.2)) <$> q);
|}.

Definition as_admin (q : QueryDict) : Request := {| user := admin; GET := q |}.
Definition as_guest (q : QueryDict) : Request := {| user := guest; GET := q |}.

(** Rendering the rows of the change list reads the stats of each server,
    which opens its connection. *)
Definition render_rows (objs : list ServerObject) : list ServerObject :=
  (λ obj, {| instance := instance obj;
             instance_world := connected (instance obj) (instance_world obj) |}) <$> objs.

(** The change list of the one server. *)
Definition cl : ChangeList :=
  {| result_list := [from_db server1]; queryset := [server1] |}.

(** A view that defers rendering: it returns a [TemplateResponse]. *)
Definition deferred_view : View := λ request server kwargs,
  mret (TemplateResponse "redisboard/inspect.html"
          (InspectCtx {| ctx_databases := []; ctx_display := server;
                         ctx_original := server; ctx_stats := down;
                         ctx_active := None; ctx_filters := "" |})
          false []).
End Demo.

(** A deployment that decodes and encodes keys as [urllib.parse] does. *)
Definition urllib_deployment (stats : Stats.t) : Collaborators := {|
  REDISBOARD_SCAN_COUNT := REDISBOARD_SCAN_COUNT (Collaborators := Demo.deployment stats);
  objects_get := objects_get (Collaborators := Demo.deployment stats);
  has_view_permission := has_view_permission (Collaborators := Demo.deployment stats);
  has_perm := has_perm (Collaborators := Demo.deployment stats);
  server_stats := server_stats (Collaborators := Demo.deployment stats);
  connection_exists := λ _ key, bool_decide (string_of_list_byte key = "user:1 %");
  display_keys := display_keys (Collaborators := Demo.deployment stats);
  display_value := display_value (Collaborators := Demo.deployment stats);
  display_scan := display_scan (Collaborators := Demo.deployment stats);
  scan_takes := scan_takes (Collaborators := Demo.deployment stats);
  decoder_key := decoder_key (Collaborators := Demo.deployment stats);
  unquote_to_bytes := Urllib.unquote_to_bytes;
  quote := Urllib.quote;
  urlencode := urlencode (Collaborators := Demo.deployment stats);
|}.

(** * Properties *)

(** ** Running the monad *)

Ltac run_M :=
  unfold mbind, M_bind, mret, M_ret, raise, emit, set_conn, alloc, store,
    with_heap, with_log, with_conn;
  cbn [fst snd log conn heap].

Lemma bind_run {A B} (c : M A) (f : A → M B) (w : World) :
  (c ≫= f) w = match c w with
               | (Returns a, w') => f a w'
               | (Raises e, w') => (Raises e, w')
               end.
Proof. reflexivity. Qed.

Lemma bind_returns {A B} (c : M A) (f : A → M B) (w w' : World) (a : A) :
  c w = (Returns a, w') → (c ≫= f) w = f a w'.
Proof. intros E. rewrite bind_run, E. reflexivity. Qed.

Lemma bind_raises {A B} (c : M A) (f : A → M B) (w w' : World) (e : Exn) :
  c w = (Raises e, w') → (c ≫= f) w = (Raises e, w').
Proof. intros E. rewrite bind_run, E. reflexivity. Qed.

Lemma with_heap_id (w : World) : with_heap (heap w) w = w.
Proof. by destruct w. Qed.

(** ** The dictionary of a query string *)

Lemma QueryDict_dict_snoc (q : QueryDict) (k v : string) :
  QueryDict_dict (q ++ [(k, v)]) = <[k := v]> (QueryDict_dict q).
Proof. unfold QueryDict_dict. by rewrite foldl_app. Qed.

(** A name has an entry exactly when the query string gives it. *)
Lemma QueryDict_dict_None (q : QueryDict) (k : string) :
  QueryDict_dict q !! k = None ↔ k ∉ q.*1.
Proof.
  induction q as [|[k' v] q IH] using rev_ind.
  - split; [intros _; apply not_elem_of_nil|done].
  - rewrite QueryDict_dict_snoc, fmap_app, not_elem_of_app, lookup_insert_None, IH.
    cbn. rewrite list_elem_of_singleton. split; intros [? ?]; split; congruence.
Qed.

(** Of the values given for a name, the last one is kept. *)
Lemma QueryDict_dict_last (q : QueryDict) (k v : string) :
  QueryDict_dict (q ++ [(k, v)]) !! k = Some v.
Proof. by rewrite QueryDict_dict_snoc, lookup_insert_eq. Qed.

(** ** The total is the sum of the key counts *)

Lemma total_keys_from (a : Z) (databases : list (Z * gmap string Z)) :
  foldl (λ acc item, acc + keys_of item.2) a databases
  = a + foldl (λ acc item, acc + keys_of item.2) 0 databases.
Proof.
  revert a. induction databases as [|item databases IH]; intros a; simpl.
  - lia.
  - rewrite (IH (a + _)), (IH (0 + _)). lia.
Qed.

Lemma total_keys_cons item databases :
  total_keys (item :: databases) = keys_of item.2 + total_keys databases.
Proof. unfold total_keys. simpl. rewrite total_keys_from. lia. Qed.

(** The total is the sum of the key counts of the databases. *)
Lemma total_keys_sum databases :
  total_keys databases = foldr Z.add 0 (keys_of <$> databases.*2).
Proof.
  induction databases as [|item databases IH].
  - reflexivity.
  - rewrite total_keys_cons, IH. reflexivity.
Qed.

(** The order of the databases does not matter for the total. *)
Lemma total_keys_perm d1 d2 :
  d1 ≡ₚ d2 → total_keys d1 = total_keys d2.
Proof.
  induction 1 as [|x l l' _ IH|x y l|l l' l'' _ IH1 _ IH2].
  - reflexivity.
  - rewrite !total_keys_cons, IH. reflexivity.
  - rewrite !total_keys_cons. lia.
  - congruence.
Qed.

(** ** Allocation and reading of summaries *)

Lemma mapM_alloc {X} (f : X → DBInfo.t) (l : list X) (w : World) :
  mapM (λ x, alloc (f x)) l w
  = (Returns (seq (length (heap w)) (length l)), with_heap (heap w ++ (f <$> l)) w).
Proof.
  revert w. induction l as [|x l IH]; intros w.
  - simpl. rewrite app_nil_r, with_heap_id. reflexivity.
  - cbn [mapM]. rewrite bind_run. cbn [alloc].
    rewrite bind_run, IH. cbn [heap with_heap].
    rewrite length_app, Nat.add_1_r, <- app_assoc. reflexivity.
Qed.

Lemma denotes_seq (w : World) (h ds : list DBInfo.t) :
  heap w = h ++ ds → denotes w (seq (length h) (length ds)) ds.
Proof.
  intros E. unfold denotes. rewrite E. clear E.
  revert h. induction ds as [|d ds IH]; intros h; simpl.
  - constructor.
  - constructor.
    + apply list_lookup_middle. reflexivity.
    + specialize (IH (h ++ [d])).
      rewrite length_app, Nat.add_1_r, <- app_assoc in IH. exact IH.
Qed.

Lemma mapM_load (w : World) (refs : list ref) (ds : list DBInfo.t) :
  denotes w refs ds → mapM load refs w = (Returns ds, w).
Proof.
  induction 1 as [|r d refs ds Hr _ IH].
  - reflexivity.
  - cbn [mapM]. rewrite bind_run. unfold load at 1. rewrite Hr.
    rewrite bind_run, IH. reflexivity.
Qed.

Section Runs.
Context {site : Collaborators}.

Lemma select_databases_run stats db w :
  select_databases stats db w
  = (Returns (match db with Some _ => Some (length (heap w)) | None => None end,
              seq (length (heap w)) (length (selected stats db))),
     with_heap (heap w ++ selected stats db) w).
Proof.
  unfold select_databases, selected. destruct db as [db|].
  - unfold selected_one. rewrite bind_run.
    destruct (dict_get db (Stats.databases stats)) as [details|]; reflexivity.
  - destruct (bool_decide _); rewrite bind_run, mapM_alloc, length_fmap;
      reflexivity.
Qed.

(** The scanner takes every keyword exactly when it takes every name of the
    query string. *)
Lemma keywords_taken_names (q : QueryDict) :
  map_Forall (λ name _, scan_takes name = true) (QueryDict_dict q)
  ↔ Forall (λ name, scan_takes name = true) q.*1.
Proof.
  rewrite map_Forall_lookup, Forall_forall. split.
  - intros Hq name Hname. destruct (QueryDict_dict q !! name) as [v|] eqn:E.
    + by apply (Hq name v).
    + by apply QueryDict_dict_None in E.
  - intros Hq name v E. apply Hq.
    destruct (decide (name ∈ q.*1)) as [|Hout]; [done|].
    apply QueryDict_dict_None in Hout. congruence.
Qed.

Lemma scan_call_error_None (q : QueryDict) :
  scan_call_error (QueryDict_dict q) = None
  ↔ ("cursor" ∉ q.*1) ∧ Forall (λ name, scan_takes name = true) q.*1.
Proof.
  unfold scan_call_error. rewrite <- keywords_taken_names, <- QueryDict_dict_None.
  destruct (decide (is_Some (QueryDict_dict q !! "cursor"))) as [[v Hv]|Hno].
  - split; [done|]. intros [E _]. congruence.
  - apply eq_None_not_Some in Hno.
    destruct (decide (map_Forall _ _)); split; try done. by intros [_ ?].
Qed.

Lemma scan_call_error_cursor (q : QueryDict) :
  "cursor" ∈ q.*1 →
  scan_call_error (QueryDict_dict q)
  = Some (TypeError "got multiple values for keyword argument 'cursor'").
Proof.
  intros Hin. unfold scan_call_error. rewrite decide_True; [done|].
  destruct (QueryDict_dict q !! "cursor") eqn:E; [done|].
  by apply QueryDict_dict_None in E.
Qed.

Lemma scan_call_error_TypeError (kwargs : gmap string string) (e : Exn) :
  scan_call_error kwargs = Some e → ∃ msg, e = TypeError msg.
Proof.
  unfold scan_call_error. repeat case_decide; intros [= <-]; by eexists.
Qed.

(** One iteration of the loop, on the object at the end of [h]. *)
Lemma scan_database_run request server cursor (h ds : list DBInfo.t) d lg c :
  (scan_enabled d = true → scan_call_error (QueryDict_dict (GET request)) = None) →
  scan_database request server cursor (length h)
    {| log := lg; conn := c; heap := h ++ d :: ds |}
  = (Returns tt,
     {| log := lg ++ scan_events cursor (QueryDict_dict (GET request)) [d];
        conn := c;
        heap := h ++ scanned server cursor (QueryDict_dict (GET request)) d :: ds |}).
Proof.
  intros Hkw. unfold scan_database.
  erewrite (bind_returns _ _ _ _ d); last first.
  { unfold load. cbn [heap]. by rewrite list_lookup_middle. }
  unfold scan_events, scanned, scan_enabled in *. rewrite filter_cons, filter_nil.
  destruct (truthy (DBInfo.scan d)) eqn:Hd.
  - rewrite decide_True by done.
    unfold call_display_scan. rewrite Hkw by done.
    run_M. rewrite !alter_app_r_alt by lia. rewrite Nat.sub_diag. reflexivity.
  - rewrite decide_False by done. run_M. rewrite app_nil_r. reflexivity.
Qed.

Lemma scan_databases_run request server cursor (ds h : list DBInfo.t) lg c :
  Forall (λ d, scan_enabled d = true → scan_call_error (QueryDict_dict (GET request)) = None)
         ds →
  scan_databases request server cursor (seq (length h) (length ds))
    {| log := lg; conn := c; heap := h ++ ds |}
  = (Returns tt,
     {| log := lg ++ scan_events cursor (QueryDict_dict (GET request)) ds;
        conn := c;
        heap := h ++ (scanned server cursor (QueryDict_dict (GET request)) <$> ds) |}).
Proof.
  intros Hkw. unfold scan_databases.
  revert h lg. induction Hkw as [|d ds Hd _ IH]; intros h lg.
  - cbn. rewrite !app_nil_r. reflexivity.
  - cbn [length seq for_each].
    erewrite bind_returns by (by apply scan_database_run).
    specialize (IH (h ++ [scanned server cursor (QueryDict_dict (GET request)) d])
                   (lg ++ scan_events cursor (QueryDict_dict (GET request)) [d])).
    rewrite length_app, Nat.add_1_r, <- !app_assoc in IH. cbn [app] in IH.
    rewrite IH. unfold scan_events. rewrite <- fmap_app, <- filter_app. reflexivity.
Qed.

(** With forwarded keywords that the call rejects, the first summary that
    is to be scanned stops the loop: nothing has been scanned or assigned. *)
Lemma scan_databases_clash request server cursor (ds h : list DBInfo.t) w e :
  scan_call_error (QueryDict_dict (GET request)) = Some e →
  Exists (λ d, scan_enabled d = true) ds →
  heap w = h ++ ds →
  scan_databases request server cursor (seq (length h) (length ds)) w = (Raises e, w).
Proof.
  intros Hkw Hex. unfold scan_databases.
  revert h. induction ds as [|d ds IH]; intros h Hw.
  - by apply Exists_nil in Hex.
  - cbn [length seq for_each]. rewrite bind_run. unfold scan_database at 1.
    erewrite (bind_returns _ _ _ _ d); last first.
    { unfold load. rewrite Hw. by rewrite list_lookup_middle. }
    destruct (truthy (DBInfo.scan d)) eqn:Hd.
    + unfold call_display_scan. rewrite Hkw. reflexivity.
    + run_M. apply Exists_cons in Hex as [Hex|Hex].
      { unfold scan_enabled in Hex. congruence. }
      specialize (IH Hex (h ++ [d])).
      rewrite length_app, Nat.add_1_r, <- app_assoc in IH. by apply IH.
Qed.
End Runs.

Section InspectRuns.
Context {site : Collaborators}.

Lemma inspect_run request server db cursor w :
  Stats.available (server_stats server) = true →
  Forall (λ d, scan_enabled d = true → scan_call_error (QueryDict_dict (GET request)) = None)
         (selected (server_stats server) db) →
  inspect request server db cursor w
  = (Returns (HttpResponse "redisboard/inspect.html"
                (InspectCtx (inspect_context request server db cursor))),
     {| log := log w
               ++ scan_events cursor (QueryDict_dict (GET request))
                    (selected (server_stats server) db)
               ++ [EvRender "redisboard/inspect.html"];
        conn := conn w;
        heap := heap w ++ (scanned server cursor (QueryDict_dict (GET request))
                           <$> selected (server_stats server) db) |}).
Proof.
  intros Hav Hkw. unfold inspect. rewrite Hav. destruct w as [lg c h].
  set (stats := server_stats server) in *.
  set (kwargs := QueryDict_dict (GET request)) in *.
  erewrite bind_returns; last first.
  { erewrite bind_returns by apply select_databases_run.
    cbv beta iota.
    erewrite bind_returns; [reflexivity|].
    unfold with_heap. cbn [log conn heap].
    by apply scan_databases_run. }
  cbv beta iota.
  erewrite bind_returns; last first.
  { apply mapM_load. cbn [heap].
    rewrite <- (length_fmap (scanned server cursor kwargs) (selected stats db)).
    by apply denotes_seq. }
  cbv beta iota.
  erewrite (bind_returns _ _ _ _
              ((λ db, scanned server cursor kwargs (selected_one stats db)) <$> db));
    last first.
  { destruct db as [db|]; [|reflexivity].
    erewrite bind_returns; [reflexivity|].
    unfold load. cbn [heap selected fmap list_fmap].
    by rewrite list_lookup_middle. }
  unfold render. run_M. unfold inspect_context.
  rewrite <- app_assoc. reflexivity.
Qed.

Lemma inspect_unavailable request server db cursor w :
  Stats.available (server_stats server) = false →
  inspect request server db cursor w
  = (Returns (HttpResponse "redisboard/inspect.html"
                (InspectCtx {| ctx_databases := [];
                               ctx_display := server;
                               ctx_original := server;
                               ctx_stats := server_stats server;
                               ctx_active := None;
                               ctx_filters := filters_of request |})),
     with_log (log w ++ [EvRender "redisboard/inspect.html"]) w).
Proof. intros Hav. unfold inspect. rewrite Hav. reflexivity. Qed.

Lemma inspect_clash request server db cursor w e :
  Stats.available (server_stats server) = true →
  scan_call_error (QueryDict_dict (GET request)) = Some e →
  Exists (λ d, scan_enabled d = true) (selected (server_stats server) db) →
  inspect request server db cursor w
  = (Raises e, with_heap (heap w ++ selected (server_stats server) db) w).
Proof.
  intros Hav Hkw Hex. unfold inspect. rewrite Hav.
  erewrite bind_raises; [reflexivity|].
  erewrite bind_returns by apply select_databases_run.
  cbv beta iota.
  erewrite bind_raises; [reflexivity|].
  by eapply scan_databases_clash.
Qed.

Lemma selected_all_enabled stats :
  Forall (λ d, scan_enabled d = bool_decide (total_keys (Stats.databases stats) < REDISBOARD_SCAN_COUNT))
         (selected stats None).
Proof. unfold selected. apply Forall_fmap, Forall_forall. by intros. Qed.

Lemma inspect_key_run request server db key cursor count w :
  inspect_key request server db key cursor count w
  = let key := unquote_to_bytes key in
    let w1 := {| log := log w ++ connect_events w server ++ [EvExists key];
                 conn := match conn w with Absent => Live | c => c end;
                 heap := heap w |} in
    if connection_exists server key
    then
      let scan := display_value server db key cursor count in
      (Returns (HttpResponse "redisboard/inspect_key.html"
         (InspectKeyCtx {| ctx_key := decoder_key server key;
                           ctx_encoded_key := quote key;
                           ctx_key_stats := display_keys server db [key];
                           ctx_count := Scan.count scan + count;
                           ctx_scan := scan;
                           ctx_db_id := db;
                           ctx_db_cursor := cursor;
                           ctx_key_original := server |})),
       with_log (log w1 ++ [EvKeys db [key]; EvValue db key cursor count;
                            EvRender "redisboard/inspect_key.html"]) w1)
    else (Returns (HttpResponseNotFound "Key is gone."), w1).
Proof.
  unfold inspect_key, server_connection, connect_events, render.
  destruct w as [lg [] h]; run_M;
    destruct (connection_exists _ _); cbn; rewrite <- ?app_assoc; reflexivity.
Qed.
End InspectRuns.

(** ** An invariant of views: the log only grows, and no view closes the
    connection *)

Lemma view_inv_ret {A} (P : A → Prop) (a : A) : P a → view_inv P (mret a).
Proof. intros Ha w. split; [exists []; by rewrite app_nil_r|done]. Qed.

Lemma view_inv_raise {A} (P : A → Prop) (e : Exn) : view_inv P (raise e).
Proof. intros w. split; [exists []; by rewrite app_nil_r|done]. Qed.

Lemma view_inv_bind {A B} (Q : A → Prop) (P : B → Prop) (c : M A) (f : A → M B) :
  view_inv Q c → (∀ a, Q a → view_inv P (f a)) → view_inv P (c ≫= f).
Proof.
  intros Hc Hf w. rewrite bind_run. specialize (Hc w).
  destruct (c w) as [[a|e] w1]; cbn [fst snd] in *.
  - destruct Hc as [(l1 & E1 & F1) Ha]. destruct (Hf a Ha w1) as [(l2 & E2 & F2) Hb].
    split; [|done]. exists (l1 ++ l2). rewrite E2, E1, app_assoc.
    split; [done|]. by apply Forall_app.
  - destruct Hc as [Hl _]. done.
Qed.

Lemma view_inv_emit (e : Event) : e ≠ EvClose → view_inv anything (emit e).
Proof. intros He w. split; [|done]. exists [e]. split; [done|]. by constructor. Qed.

Lemma view_inv_silent {A} (c : M A) :
  (∀ w, log (c w).2 = log w) → view_inv anything c.
Proof.
  intros Hc w. split.
  - exists []. by rewrite app_nil_r.
  - by destruct (c w).1.
Qed.

Lemma view_inv_alloc d : view_inv anything (alloc d).
Proof. by apply view_inv_silent. Qed.

Lemma view_inv_load r : view_inv anything (load r).
Proof. apply view_inv_silent. intros w. unfold load. by destruct (heap w !! r). Qed.

Lemma view_inv_store r f : view_inv anything (store r f).
Proof. by apply view_inv_silent. Qed.

Lemma view_inv_set_conn c : view_inv anything (set_conn c).
Proof. by apply view_inv_silent. Qed.

Lemma view_inv_mapM {A B} (f : A → M B) (l : list A) :
  (∀ x, view_inv anything (f x)) → view_inv anything (mapM f l).
Proof.
  intros Hf. induction l as [|x l IH]; cbn [mapM].
  - by apply view_inv_ret.
  - eapply view_inv_bind; [apply Hf|]. intros y _.
    eapply view_inv_bind; [apply IH|]. intros k _. by apply view_inv_ret.
Qed.

Lemma view_inv_for_each {A} (body : A → M unit) (l : list A) :
  (∀ x, view_inv anything (body x)) → view_inv anything (for_each l body).
Proof.
  intros Hf. induction l as [|x l IH]; cbn [for_each].
  - by apply view_inv_ret.
  - eapply view_inv_bind; [apply Hf|]. by intros.
Qed.

Create HintDb view_inv.
#[export] Hint Resolve view_inv_alloc view_inv_load view_inv_store view_inv_set_conn
  view_inv_raise : view_inv.
#[export] Hint Extern 1 (view_inv _ (mret _)) => apply view_inv_ret; done : view_inv.
#[export] Hint Extern 1 (view_inv _ (emit _)) => apply view_inv_emit; discriminate : view_inv.
#[export] Hint Extern 2 (view_inv _ (_ ≫= _)) =>
  eapply view_inv_bind; [|intros ? _] : view_inv.

Section ViewInvariant.
Context {site : Collaborators}.

Lemma view_inv_server_connection server : view_inv anything (server_connection server).
Proof.
  intros w. unfold server_connection. destruct (conn w); split; try done.
  - exists [EvConnect server]. split; [done|]. by repeat constructor.
  - exists []. by rewrite app_nil_r.
  - exists []. by rewrite app_nil_r.
Qed.

Lemma view_inv_render request template context :
  view_inv eager (render request template context).
Proof.
  unfold render. eapply view_inv_bind; [by apply view_inv_emit|].
  intros _ _. by apply view_inv_ret.
Qed.

Lemma view_inv_call_display_scan server id cursor kwargs :
  view_inv anything (call_display_scan server id cursor kwargs).
Proof. unfold call_display_scan. destruct (scan_call_error kwargs); eauto with view_inv. Qed.

Lemma view_inv_select_databases stats db :
  view_inv anything (select_databases stats db).
Proof.
  apply view_inv_silent. intros w. by rewrite select_databases_run.
Qed.

Lemma view_inv_scan_databases request server cursor databases :
  view_inv anything (scan_databases request server cursor databases).
Proof.
  apply view_inv_for_each. intros r. unfold scan_database.
  eapply view_inv_bind; [apply view_inv_load|]. intros d _.
  destruct (truthy (DBInfo.scan d)); [|by apply view_inv_ret].
  eapply view_inv_bind; [apply view_inv_call_display_scan|]. intros page _.
  eauto with view_inv.
Qed.

Lemma view_inv_inspect request server db cursor :
  view_inv eager (inspect request server db cursor).
Proof.
  unfold inspect.
  eapply (view_inv_bind anything).
  { destruct (Stats.available _); [|by apply view_inv_ret].
    eapply view_inv_bind; [apply view_inv_select_databases|]. intros [active databases] _.
    eapply view_inv_bind; [apply view_inv_scan_databases|]. intros _ _.
    by apply view_inv_ret. }
  intros [active databases] _.
  eapply view_inv_bind; [apply view_inv_mapM, view_inv_load|]. intros shown _.
  eapply (view_inv_bind anything).
  { destruct active; eauto with view_inv. }
  intros shown_active _. apply view_inv_render.
Qed.

Lemma view_inv_inspect_key request server db key cursor count :
  view_inv eager (inspect_key request server db key cursor count).
Proof.
  unfold inspect_key.
  eapply view_inv_bind; [apply view_inv_server_connection|]. intros _ _.
  eapply (view_inv_bind anything); [eauto with view_inv|]. intros found _.
  destruct found; cbn [negb]; [|by apply view_inv_ret].
  eapply (view_inv_bind anything); [eauto with view_inv|]. intros stats _.
  eapply (view_inv_bind anything); [eauto with view_inv|]. intros scan _.
  apply view_inv_render.
Qed.

Lemma view_inv_route_view route request server :
  view_inv eager (route_view route request server (route_kwargs route)).
Proof.
  destruct route; cbn; first [apply view_inv_inspect | apply view_inv_inspect_key].
Qed.
End ViewInvariant.

(** ** The wrapper *)

Section Wrapper.
Context {site : Collaborators}.

Lemma wrapper_missing view request server_id kwargs w :
  objects_get server_id = None →
  wrapper view request server_id kwargs w = (Raises Http404, w).
Proof. intros E. unfold wrapper, get_object_or_404. by rewrite E. Qed.

Lemma wrapper_denied view request server_id server kwargs w :
  objects_get server_id = Some server →
  may_inspect request server = false →
  wrapper view request server_id kwargs w
  = (Returns (HttpResponseForbidden "You can't inspect this server."), w).
Proof.
  intros E Hgate. unfold wrapper, get_object_or_404. rewrite E.
  rewrite bind_run. cbn. by rewrite Hgate.
Qed.

Lemma server_connection_run server w :
  server_connection server w = (Returns Connection, connected server w).
Proof. unfold connected, server_connection. by destruct (conn w). Qed.

Lemma wrapper_permitted view request server_id server kwargs w :
  objects_get server_id = Some server →
  may_inspect request server = true →
  wrapper view request server_id kwargs w
  = let '(out, w1) :=
      (response ← view request server kwargs;
       if isinstance_TemplateResponse response
       then add_post_render_callback response
              (partial_cleanup_connection Connection_close)
       else mret response) (connected server w) in
    (out, closed w1).
Proof.
  intros E Hgate. unfold wrapper, get_object_or_404. rewrite E.
  rewrite bind_run. cbn -[server_connection]. rewrite Hgate.
  rewrite bind_run, server_connection_run. unfold try_finally.
  match goal with |- context [mbind ?f ?c ?w] => destruct (mbind f c w) as [out w1] end.
  reflexivity.
Qed.

(** Whatever the view does, and however it ends, the wrapper of a
    permitted request ends by closing the connection. *)
Lemma wrapper_closes_last view request server_id server kwargs w :
  objects_get server_id = Some server →
  may_inspect request server = true →
  ∃ l, log (wrapper view request server_id kwargs w).2 = l ++ [EvClose]
       ∧ conn (wrapper view request server_id kwargs w).2 = Closed.
Proof.
  intros E Hgate. rewrite (wrapper_permitted _ _ _ server) by done.
  match goal with |- context [mbind ?f ?c ?w] => destruct (mbind f c w) as [out w1] end.
  by exists (log w1).
Qed.

(** A view of the class renders before it returns: the wrapper queues no
    callback, and closes the connection after the view is done. *)
Lemma wrapper_eager view request server_id server kwargs w :
  objects_get server_id = Some server →
  may_inspect request server = true →
  view_inv eager (view request server kwargs) →
  wrapper view request server_id kwargs w
  = ((view request server kwargs (connected server w)).1,
     closed (view request server kwargs (connected server w)).2).
Proof.
  intros E Hgate Hview. rewrite (wrapper_permitted _ _ _ server) by done.
  rewrite bind_run. destruct (Hview (connected server w)) as [_ Hout].
  destruct (view request server kwargs (connected server w)) as [[r|e] w1];
    cbn [fst snd] in *; [|done].
  by destruct r.
Qed.

Lemma dispatch_permitted route request server_id server :
  objects_get server_id = Some server →
  may_inspect request server = true →
  ∃ l, log (dispatch route request server_id World0).2 = EvConnect server :: l ++ [EvClose]
       ∧ Forall (λ e, e ≠ EvClose) l
       ∧ conn (dispatch route request server_id World0).2 = Closed
       ∧ match (dispatch route request server_id World0).1 with
         | Returns r => eager r
         | Raises _ => True
         end.
Proof.
  intros E Hgate. unfold dispatch, wrap.
  rewrite (wrapper_eager _ _ _ server) by auto using view_inv_route_view.
  destruct (view_inv_route_view route request server (connected server World0))
    as [(l & El & Fl) Hout].
  exists l. cbn [fst snd]. unfold closed. cbn [log conn with_conn with_log].
  rewrite El. done.
Qed.
End Wrapper.

(** ** The selector *)

Lemma denotes_unique (w : World) (refs : list ref) (ds ds' : list DBInfo.t) :
  denotes w refs ds → denotes w refs ds' → ds = ds'.
Proof.
  intros D. revert ds'. induction D as [|r d refs ds Hr _ IH]; intros ds' D'.
  - by inversion D'.
  - inversion D' as [|r' d' refs' ds'' Hr' D'']; subst.
    f_equal; [congruence|by apply IH].
Qed.

Lemma select_databases_denotes {site : Collaborators} stats db w refs active w' ds :
  select_databases stats db w = (Returns (active, refs), w') →
  denotes w' refs ds →
  ds = selected stats db.
Proof.
  rewrite select_databases_run. intros [= <- <- <-] D.
  eapply denotes_unique; [exact D|]. by apply denotes_seq.
Qed.

(** C1: with no explicit database, the selector returns one summary per
    database; the total it compares with [REDISBOARD_SCAN_COUNT] is the sum,
    over all databases, of the count each has under ["keys"] (0 if it has
    none); the summaries are all to be scanned when that sum is below the
    threshold, and none of them is otherwise.  Two key-count maps with the
    same sum therefore get the same decision, however their keys are spread
    over the databases. *)
Theorem select_total_decides {site : Collaborators} (stats : Stats.t) (w : World) :
  let sum_keys := λ stats : Stats.t,
        foldr Z.add 0 ((λ details : gmap string Z, default 0 (details !! "keys"))
                       <$> (Stats.databases stats).*2) in
  ∃ refs w' ds,
    select_databases stats None w = (Returns (None, refs), w')
    ∧ denotes w' refs ds
    ∧ DBInfo.id <$> ds = (Stats.databases stats).*1
    ∧ DBInfo.details <$> ds = (Stats.databases stats).*2
    ∧ total_keys (Stats.databases stats) = sum_keys stats
    ∧ (sum_keys stats < REDISBOARD_SCAN_COUNT → Forall (λ d, scan_enabled d = true) ds)
    ∧ (REDISBOARD_SCAN_COUNT ≤ sum_keys stats → Forall (λ d, scan_enabled d = false) ds)
    ∧ (∀ stats2 w2 refs2 w2' ds2,
         sum_keys stats2 = sum_keys stats →
         select_databases stats2 None w2 = (Returns (None, refs2), w2') →
         denotes w2' refs2 ds2 →
         ∀ d d2, d ∈ ds → d2 ∈ ds2 → scan_enabled d = scan_enabled d2).
Proof.
  intros sum_keys.
  assert (Hsum : ∀ stats, total_keys (Stats.databases stats) = sum_keys stats).
  { intros stats'. apply total_keys_sum. }
  eexists _, _, (selected stats None).
  split; [apply select_databases_run|].
  split; [by apply denotes_seq|].
  pose proof (selected_all_enabled stats) as Hall.
  split; [unfold selected; by rewrite <- list_fmap_compose|].
  split; [unfold selected; by rewrite <- list_fmap_compose|].
  split; [apply Hsum|].
  rewrite <- Hsum. split; [|split].
  - intros Hlt. eapply Forall_impl; [exact Hall|]. cbn. intros d ->.
    by apply bool_decide_eq_true.
  - intros Hge. eapply Forall_impl; [exact Hall|]. cbn. intros d ->.
    apply bool_decide_eq_false. lia.
  - intros stats2 w2 refs2 w2' ds2 Htot Hrun D2 d d2 Hd Hd2.
    rewrite <- Hsum in Htot.
    apply select_databases_denotes with (ds := ds2) in Hrun as ->; [|done].
    pose proof (selected_all_enabled stats2) as Hall2.
    rewrite Forall_forall in Hall, Hall2.
    rewrite (Hall d Hd), (Hall2 d2 Hd2), Htot. reflexivity.
Qed.

Lemma select_total_decides_witness :
  let sum_keys := λ stats : Stats.t,
        foldr Z.add 0 ((λ details : gmap string Z, default 0 (details !! "keys"))
                       <$> (Stats.databases stats).*2) in
  (sum_keys Demo.small = 80 ∧ sum_keys Demo.skewed = 80 ∧ sum_keys Demo.large = 1200)
  ∧ (∃ refs w' ds,
       select_databases (site := Demo.deployment Demo.small) Demo.small None World0
       = (Returns (None, refs), w')
       ∧ denotes w' refs ds
       ∧ DBInfo.details <$> ds = [Demo.keys 50; Demo.keys 30]
       ∧ Forall (λ d, scan_enabled d = true) ds
       ∧ ∀ d d2, d ∈ ds →
                 d2 ∈ selected (site := Demo.deployment Demo.small) Demo.skewed None →
                 scan_enabled d = scan_enabled d2)
  ∧ (∃ refs w' ds,
       select_databases (site := Demo.deployment Demo.large) Demo.large None World0
       = (Returns (None, refs), w')
       ∧ denotes w' refs ds
       ∧ DBInfo.details <$> ds = [Demo.keys 500; Demo.keys 700]
       ∧ Forall (λ d, scan_enabled d = false) ds).
Proof.
  intros sum_keys. split; [by vm_compute|]. split.
  - destruct (select_total_decides (site := Demo.deployment Demo.small) Demo.small World0)
      as (refs & w' & ds & Hrun & D & _ & Hdetails & _ & Hlt & _ & Hsame).
    exists refs, w', ds.
    split; [exact Hrun|]. split; [exact D|]. split; [exact Hdetails|].
    split; [apply Hlt; by vm_compute|].
    intros d d2 Hd Hd2.
    eapply (Hsame Demo.skewed World0 _ _
              (selected (site := Demo.deployment Demo.small) Demo.skewed None));
      [by vm_compute | apply select_databases_run | by apply denotes_seq | done | done].
  - destruct (select_total_decides (site := Demo.deployment Demo.large) Demo.large World0)
      as (refs & w' & ds & Hrun & D & _ & Hdetails & _ & _ & Hge & _).
    exists refs, w', ds.
    split; [exact Hrun|]. split; [exact D|]. split; [exact Hdetails|].
    apply Hge. by vm_compute.
Defined.

(** C2: for an explicitly selected database the selector returns exactly one
    summary, for that id, to be scanned whatever its key count and the
    threshold are; an id without an entry in the key-count map gets a summary
    with a key count of 0, and the selector returns normally. *)
Theorem select_explicit_database {site : Collaborators} (stats : Stats.t) (db : Z) (w : World) :
  ∃ r w' d,
    select_databases stats (Some db) w = (Returns (Some r, [r]), w')
    ∧ heap w' !! r = Some d
    ∧ DBInfo.id d = db
    ∧ DBInfo.scan d = Flag true
    ∧ scan_enabled d = true
    ∧ (∀ details, dict_get db (Stats.databases stats) = Some details →
                  DBInfo.details d = details)
    ∧ (dict_get db (Stats.databases stats) = None →
       DBInfo.details d = {[ "keys" := 0 ]} ∧ keys_of (DBInfo.details d) = 0).
Proof.
  exists (length (heap w)), (with_heap (heap w ++ selected stats (Some db)) w),
    (selected_one stats db).
  split; [apply select_databases_run|].
  split; [by apply list_lookup_middle|].
  unfold selected_one.
  do 3 (split; [reflexivity|]). split.
  - by intros details ->.
  - by intros ->.
Qed.

Lemma select_explicit_database_witness :
  dict_get 5 (Stats.databases Demo.single) = None
  ∧ ∃ r w' d,
      select_databases (site := Demo.deployment Demo.single) Demo.single (Some 5) World0
      = (Returns (Some r, [r]), w')
      ∧ heap w' !! r = Some d
      ∧ DBInfo.id d = 5 ∧ scan_enabled d = true ∧ keys_of (DBInfo.details d) = 0.
Proof.
  split; [reflexivity|].
  destruct (select_explicit_database (site := Demo.deployment Demo.single)
              Demo.single 5 World0)
    as (r & w' & d & Hrun & Hd & Hid & _ & Hscan & _ & Hnone).
  exists r, w', d. repeat split; try done. by apply Hnone.
Defined.

(** ** Key detail *)

(** C3: when the existence check made right before fetching says that the
    key is not there, [inspect_key] answers "not found": besides reading the
    connection it only asks the store whether the key exists; it fetches no
    statistics and no value and renders nothing. *)
Theorem missing_key_not_found {site : Collaborators} (request : Request)
    (server : RedisServer) (db : Z) (key : string) (cursor count : Z) (w : World) :
  connection_exists server (unquote_to_bytes key) = false →
  ∃ w', inspect_key request server db key cursor count w
        = (Returns (HttpResponseNotFound "Key is gone."), w')
        ∧ log w' = log w ++ connect_events w server ++ [EvExists (unquote_to_bytes key)]
        ∧ heap w' = heap w.
Proof.
  intros Hgone. rewrite inspect_key_run. cbv zeta. rewrite Hgone.
  eexists. split; [reflexivity|]. done.
Qed.

Lemma missing_key_not_found_witness :
  connection_exists (Collaborators := Demo.deployment Demo.small) Demo.server1
    (unquote_to_bytes (Collaborators := Demo.deployment Demo.small) "missing") = false
  ∧ ∃ w', inspect_key (site := Demo.deployment Demo.small) (Demo.as_admin [])
            Demo.server1 0 "missing" 0 0 World0
          = (Returns (HttpResponseNotFound "Key is gone."), w')
          ∧ log w' = [EvConnect Demo.server1; EvExists (list_byte_of_string "missing")].
Proof.
  split; [reflexivity|].
  destruct (missing_key_not_found (site := Demo.deployment Demo.small) (Demo.as_admin [])
              Demo.server1 0 "missing" 0 0 World0 eq_refl) as (w' & Hrun & Hlog & _).
  exists w'. split; [exact Hrun|exact Hlog].
Defined.

(** C9: the [count] of the context of a key-detail page is the count of the
    value page the store returned plus the [count] of the route (0 when the
    route has none), so it differs from the count of the page whenever the
    route's count is not 0. *)
Theorem key_count_adds_route_count {site : Collaborators} (request : Request)
    (server : RedisServer) (kwargs : Kwargs) (db : Z) (key : string) (w : World) :
  kw_db kwargs = Some db →
  kw_key kwargs = Some key →
  connection_exists server (unquote_to_bytes key) = true →
  let cursor := default 0 (kw_cursor kwargs) in
  let count := default 0 (kw_count kwargs) in
  let page := display_value server db (unquote_to_bytes key) cursor count in
  ∃ c w', inspect_key_view request server kwargs w
          = (Returns (HttpResponse "redisboard/inspect_key.html" (InspectKeyCtx c)), w')
          ∧ ctx_scan c = page
          ∧ ctx_count c = Scan.count page + count
          ∧ (count ≠ 0 → ctx_count c ≠ Scan.count (ctx_scan c)).
Proof.
  intros Hdb Hkey Hfound cursor count page.
  unfold inspect_key_view. rewrite Hdb, Hkey, inspect_key_run. cbv zeta.
  rewrite Hfound. eexists _, _. split; [reflexivity|]. cbn.
  repeat split. fold cursor count page. lia.
Qed.

Lemma key_count_adds_route_count_witness :
  ∃ c w', inspect_key_view (site := Demo.deployment Demo.small) (Demo.as_admin [])
            Demo.server1 (route_kwargs (key_cursor_count_route 0 0 5 "present")) World0
          = (Returns (HttpResponse "redisboard/inspect_key.html" (InspectKeyCtx c)), w')
          ∧ Scan.count (ctx_scan c) = 7
          ∧ ctx_count c = 12.
Proof.
  destruct (key_count_adds_route_count (site := Demo.deployment Demo.small)
              (Demo.as_admin []) Demo.server1
              (route_kwargs (key_cursor_count_route 0 0 5 "present")) 0 "present" World0
              eq_refl eq_refl eq_refl) as (c & w' & Hrun & Hscan & Hcount & _).
  exists c, w'. split; [exact Hrun|]. rewrite Hscan, Hcount. split; reflexivity.
Defined.

(** ** The permission gate *)

(** C4: when the gate denies the request, the wrapper answers "forbidden"
    and nothing else happens: whatever the wrapped view is, it is not
    run, no connection is created and the world is as it was. *)
Theorem denied_is_forbidden {site : Collaborators} (view : View) (request : Request)
    (server_id : Z) (server : RedisServer) (kwargs : Kwargs) (w : World) :
  objects_get server_id = Some server →
  may_inspect request server = false →
  wrapper view request server_id kwargs w
  = (Returns (HttpResponseForbidden "You can't inspect this server."), w).
Proof. apply wrapper_denied. Qed.

Lemma denied_is_forbidden_witness :
  dispatch (site := Demo.deployment Demo.small) (key_route 0 "present")
    (Demo.as_guest []) 1 World0
  = (Returns (HttpResponseForbidden "You can't inspect this server."), World0).
Proof.
  exact (denied_is_forbidden (site := Demo.deployment Demo.small) inspect_key_view
           (Demo.as_guest []) 1 Demo.server1 (route_kwargs (key_route 0 "present"))
           World0 eq_refl eq_refl).
Defined.

(** X5: a request for a server that does not exist raises [Http404]
    before the gate is looked at; nothing is run. *)
Theorem missing_server_is_404 {site : Collaborators} (view : View) (request : Request)
    (server_id : Z) (kwargs : Kwargs) (w : World) :
  objects_get server_id = None →
  wrapper view request server_id kwargs w = (Raises Http404, w).
Proof. apply wrapper_missing. Qed.

Lemma missing_server_is_404_witness :
  dispatch (site := Demo.deployment Demo.small) inspect_route (Demo.as_admin []) 2 World0
  = (Raises Http404, World0).
Proof.
  exact (missing_server_is_404 (site := Demo.deployment Demo.small) inspect_view
           (Demo.as_admin []) 2 (route_kwargs inspect_route) World0 eq_refl).
Defined.

(** C8: a request for an existing server is served exactly when the user
    has the view permission on that server and the permission
    [redisboard.can_inspect]: then the response is the outcome of the view,
    run on the connection that is closed afterwards; when either check fails
    the response is "forbidden" and nothing was run; and "forbidden" is
    the answer only then. *)
Theorem gate_is_conjunction {site : Collaborators} (route : Route) (request : Request)
    (server_id : Z) (server : RedisServer) :
  objects_get server_id = Some server →
  let run := dispatch route request server_id World0 in
  let served := route_view route request server (route_kwargs route)
                  (connected server World0) in
  (has_view_permission request server = true
   ∧ has_perm (user request) "redisboard.can_inspect" = true →
   run = (served.1, closed served.2))
  ∧ (has_view_permission request server = false
     ∨ has_perm (user request) "redisboard.can_inspect" = false →
     run = (Returns (HttpResponseForbidden "You can't inspect this server."), World0))
  ∧ (run.1 = Returns (HttpResponseForbidden "You can't inspect this server.")
     ↔ has_view_permission request server = false
       ∨ has_perm (user request) "redisboard.can_inspect" = false)
  ∧ (EvConnect server ∈ log run.2
     ↔ has_view_permission request server = true
       ∧ has_perm (user request) "redisboard.can_inspect" = true).
Proof.
  intros Hserver run served.
  assert (Hgate : may_inspect request server = true
                  ↔ has_view_permission request server = true
                    ∧ has_perm (user request) "redisboard.can_inspect" = true).
  { unfold may_inspect. apply andb_true_iff. }
  assert (Hdeny : may_inspect request server = false
                  ↔ has_view_permission request server = false
                    ∨ has_perm (user request) "redisboard.can_inspect" = false).
  { unfold may_inspect. apply andb_false_iff. }
  assert (Hyes : may_inspect request server = true → run = (served.1, closed served.2)).
  { intros Hg. apply wrapper_eager; auto using view_inv_route_view. }
  assert (Hno : may_inspect request server = false →
                run = (Returns (HttpResponseForbidden "You can't inspect this server."), World0)).
  { intros Hg. by apply (wrapper_denied _ _ _ server). }
  split; [by intros ?%Hgate; auto|]. split; [by intros ?%Hdeny; auto|].
  destruct (may_inspect request server) eqn:Hg.
  - destruct (dispatch_permitted route request server_id server Hserver Hg)
      as (l & Hlog & _ & _ & Hout).
    fold run in Hlog, Hout. split.
    + split.
      * intros Hrun. rewrite Hrun in Hout. done.
      * intros Hd%Hdeny. done.
    + split; [by intros _; apply Hgate|].
      intros _. rewrite Hlog. apply list_elem_of_here.
  - rewrite (Hno eq_refl). cbn [fst snd]. split.
    + split; [by intros _; apply Hdeny|done].
    + split; [by intros ?%elem_of_nil|].
      intros Hd%Hgate. done.
Qed.

Lemma gate_is_conjunction_witness :
  dispatch (site := Demo.deployment Demo.small) inspect_route (Demo.as_guest []) 1 World0
  = (Returns (HttpResponseForbidden "You can't inspect this server."), World0)
  ∧ EvConnect Demo.server1
    ∈ log (dispatch (site := Demo.deployment Demo.small) inspect_route
             (Demo.as_admin []) 1 World0).2.
Proof.
  split.
  - apply (gate_is_conjunction (site := Demo.deployment Demo.small) inspect_route
             (Demo.as_guest []) 1 Demo.server1 eq_refl).
    left. reflexivity.
  - apply (gate_is_conjunction (site := Demo.deployment Demo.small) inspect_route
             (Demo.as_admin []) 1 Demo.server1 eq_refl).
    split; reflexivity.
Defined.

(** ** The page of databases *)

Lemma scanned_disabled {site : Collaborators} server cursor kwargs (ds : list DBInfo.t) :
  Forall (λ d, scan_enabled d = false) ds →
  scanned server cursor kwargs <$> ds = ds ∧ scan_events cursor kwargs ds = [].
Proof.
  unfold scan_events. induction 1 as [|d ds Hd _ [IH1 IH2]]; [done|].
  cbn [fmap list_fmap]. rewrite filter_cons, decide_False by congruence.
  fold (fmap (M := list) (scanned server cursor kwargs) ds). rewrite IH1. split; [|done].
  unfold scanned. unfold scan_enabled in Hd. by rewrite Hd.
Qed.

(** C7: when the stats of the server are unavailable, [inspect] still
    renders its page: with an empty list of databases and no active
    database, without building any summary and without calling the
    scanner (rendering is the only thing it does). *)
Theorem unavailable_stats_render_empty {site : Collaborators} (request : Request)
    (server : RedisServer) (db : option Z) (cursor : Z) (w : World) :
  Stats.available (server_stats server) = false →
  ∃ c w', inspect request server db cursor w
          = (Returns (HttpResponse "redisboard/inspect.html" (InspectCtx c)), w')
          ∧ ctx_databases c = []
          ∧ ctx_active c = None
          ∧ log w' = log w ++ [EvRender "redisboard/inspect.html"]
          ∧ heap w' = heap w.
Proof.
  intros Hdown. rewrite inspect_unavailable by done.
  eexists _, _. split; [reflexivity|]. done.
Qed.

Lemma unavailable_stats_render_empty_witness :
  ∃ c w', inspect (site := Demo.deployment Demo.down) (Demo.as_admin [])
            Demo.server1 (Some 3) 0 World0
          = (Returns (HttpResponse "redisboard/inspect.html" (InspectCtx c)), w')
          ∧ ctx_databases c = []
          ∧ ctx_active c = None
          ∧ log w' = [EvRender "redisboard/inspect.html"].
Proof.
  destruct (unavailable_stats_render_empty (site := Demo.deployment Demo.down)
              (Demo.as_admin []) Demo.server1 (Some 3) 0 World0 eq_refl)
    as (c & w' & Hrun & Hdbs & Hact & Hlog & _).
  exists c, w'. done.
Defined.

(** C10: with no explicit database and a total at or above the threshold,
    the page shows every database as the selector built it, with its id and
    details, the [scan] attribute still false and the [cursor] still unset;
    the scanner is not called for any of them (rendering is the only
    event), whatever the query string holds. *)
Theorem summarised_databases_not_scanned {site : Collaborators} (request : Request)
    (server : RedisServer) (cursor : Z) (w : World) :
  Stats.available (server_stats server) = true →
  REDISBOARD_SCAN_COUNT ≤ total_keys (Stats.databases (server_stats server)) →
  ∃ c w', inspect request server None cursor w
          = (Returns (HttpResponse "redisboard/inspect.html" (InspectCtx c)), w')
          ∧ ctx_databases c
            = (λ item, DBInfo.new item.1 item.2 DBInfo.default_scan)
              <$> Stats.databases (server_stats server)
          ∧ Forall (λ d, DBInfo.scan d = Flag false ∧ DBInfo.cursor d = None)
                   (ctx_databases c)
          ∧ ctx_active c = None
          ∧ log w' = log w ++ [EvRender "redisboard/inspect.html"].
Proof.
  intros Hup Hge.
  assert (Hsel : selected (server_stats server) None
                 = (λ item, DBInfo.new item.1 item.2 DBInfo.default_scan)
                   <$> Stats.databases (server_stats server)).
  { unfold selected. rewrite bool_decide_eq_false_2 by lia. reflexivity. }
  assert (Hoff : Forall (λ d, scan_enabled d = false) (selected (server_stats server) None)).
  { rewrite Hsel. apply Forall_fmap, Forall_forall. by intros. }
  destruct (scanned_disabled server cursor (QueryDict_dict (GET request)) _ Hoff)
    as [Hsame Hnone].
  rewrite inspect_run; [|done|].
  2:{ eapply Forall_impl; [exact Hoff|]. cbn. congruence. }
  eexists _, _. split; [reflexivity|].
  cbn [ctx_databases ctx_active inspect_context log fmap option_fmap option_map].
  rewrite Hsame, Hnone, Hsel. repeat split.
  apply Forall_fmap, Forall_forall. by intros.
Qed.

Lemma summarised_databases_not_scanned_witness :
  ∃ c w', inspect (site := Demo.deployment Demo.large) (Demo.as_admin [("cursor", "5")])
            Demo.server1 None 0 World0
          = (Returns (HttpResponse "redisboard/inspect.html" (InspectCtx c)), w')
          ∧ ctx_databases c = [DBInfo.new 0 (Demo.keys 500) (Flag false);
                               DBInfo.new 1 (Demo.keys 700) (Flag false)]
          ∧ log w' = [EvRender "redisboard/inspect.html"].
Proof.
  destruct (summarised_databases_not_scanned (site := Demo.deployment Demo.large)
              (Demo.as_admin [("cursor", "5")]) Demo.server1 0 World0 eq_refl)
    as (c & w' & Hrun & Hdbs & _ & _ & Hlog).
  { by vm_compute. }
  exists c, w'. done.
Defined.

(** ** Scanning *)

(** X1: when the query string has no parameter named [cursor] and the
    scanner takes every name of the query string as a keyword, the page
    shows every selected database; for each of them that is to be scanned
    the scanner was called with the id of the database, the cursor of the
    route and the dictionary of the query string, and the page it returned
    and the cursor are stored in the summary.  The active database is the
    very object of the list. *)
Theorem enabled_summaries_scanned {site : Collaborators} (request : Request)
    (server : RedisServer) (db : option Z) (cursor : Z) (w : World) :
  Stats.available (server_stats server) = true →
  "cursor" ∉ (GET request).*1 →
  Forall (λ name, scan_takes name = true) (GET request).*1 →
  let kwargs := QueryDict_dict (GET request) in
  let summaries := selected (server_stats server) db in
  ∃ c w', inspect request server db cursor w
          = (Returns (HttpResponse "redisboard/inspect.html" (InspectCtx c)), w')
          ∧ ctx_databases c = scanned server cursor kwargs <$> summaries
          ∧ ctx_active c = (match db with Some _ => head (ctx_databases c) | None => None end)
          ∧ log w' = log w ++ scan_events cursor kwargs summaries
                     ++ [EvRender "redisboard/inspect.html"]
          ∧ ∀ d, d ∈ summaries → scan_enabled d = true →
                 EvScan (DBInfo.id d) cursor kwargs ∈ log w'
                 ∧ DBInfo.scan (scanned server cursor kwargs d)
                   = Page (display_scan server (DBInfo.id d) cursor kwargs)
                 ∧ DBInfo.cursor (scanned server cursor kwargs d) = Some cursor.
Proof.
  intros Hup Hkw Htaken kwargs summaries.
  assert (Hok : scan_call_error (QueryDict_dict (GET request)) = None).
  { by apply scan_call_error_None. }
  rewrite inspect_run; [|done|by apply Forall_forall].
  eexists _, _. split; [reflexivity|].
  cbn [ctx_databases ctx_active inspect_context log].
  split; [done|]. split; [by destruct db|]. split; [done|].
  intros d Hd Hon. split; [|unfold scanned; unfold scan_enabled in Hon; by rewrite Hon].
  apply elem_of_app. right. apply elem_of_app. left.
  unfold scan_events. apply (list_elem_of_fmap_2 (λ d, EvScan (DBInfo.id d) cursor kwargs)).
  by apply list_elem_of_filter.
Qed.

Lemma enabled_summaries_scanned_witness :
  ∃ c w', inspect (site := Demo.deployment Demo.small) (Demo.as_admin [("match", "user:*")])
            Demo.server1 None 0 World0
          = (Returns (HttpResponse "redisboard/inspect.html" (InspectCtx c)), w')
          ∧ log w' = [EvScan 0 0 {[ "match" := "user:*" ]};
                      EvScan 1 0 {[ "match" := "user:*" ]};
                      EvRender "redisboard/inspect.html"].
Proof.
  destruct (enabled_summaries_scanned (site := Demo.deployment Demo.small)
              (Demo.as_admin [("match", "user:*")]) Demo.server1 None 0 World0 eq_refl)
    as (c & w' & Hrun & _ & _ & Hlog & _).
  { cbn. intros ?%list_elem_of_singleton. discriminate. }
  { constructor; [reflexivity|constructor]. }
  exists c, w'. split; [exact Hrun|]. rewrite Hlog. by vm_compute.
Defined.

(** X4: when the query string has a parameter named [cursor] and some
    selected database is to be scanned, [inspect] raises [TypeError]; the
    log is as it was: nothing was scanned and nothing rendered. *)
Theorem cursor_parameter_stops_inspect {site : Collaborators} (request : Request)
    (server : RedisServer) (db : option Z) (cursor : Z) (w : World) :
  Stats.available (server_stats server) = true →
  "cursor" ∈ (GET request).*1 →
  Exists (λ d, scan_enabled d = true) (selected (server_stats server) db) →
  ∃ w', inspect request server db cursor w
        = (Raises (TypeError "got multiple values for keyword argument 'cursor'"), w')
        ∧ log w' = log w.
Proof.
  intros Hup Hkw Hon.
  exists (with_heap (heap w ++ selected (server_stats server) db) w).
  split; [|reflexivity].
  apply inspect_clash; [done| |done].
  by apply scan_call_error_cursor.
Qed.

Lemma cursor_parameter_stops_inspect_witness :
  ∃ w', inspect (site := Demo.deployment Demo.single)
          (Demo.as_admin [("match", "a*"); ("cursor", "7")]) Demo.server1 (Some 0) 0 World0
        = (Raises (TypeError "got multiple values for keyword argument 'cursor'"), w')
        ∧ log w' = [].
Proof.
  apply (cursor_parameter_stops_inspect (site := Demo.deployment Demo.single)
           (Demo.as_admin [("match", "a*"); ("cursor", "7")]) Demo.server1 (Some 0) 0
           World0 eq_refl).
  - cbn. apply list_elem_of_further, list_elem_of_here.
  - apply Exists_cons_hd. reflexivity.
Defined.

(** C5: a request whose query string has a parameter named [cursor], for a
    server with databases to scan: the call of the scanner is rejected
    because the keyword [cursor] is given twice, so [inspect] raises
    [TypeError]; no database is scanned and no page is attached or
    rendered. *)
Theorem cursor_parameter_rejected :
  let request := Demo.as_admin [("cursor", "5")] in
  inspect (site := Demo.deployment Demo.small) request Demo.server1 None 0 World0
  = (Raises (TypeError "got multiple values for keyword argument 'cursor'"),
     with_heap [DBInfo.new 0 (Demo.keys 50) (Flag true);
                DBInfo.new 1 (Demo.keys 30) (Flag true)] World0)
  ∧ (dispatch (site := Demo.deployment Demo.small) inspect_route request 1 World0).1
    = Raises (TypeError "got multiple values for keyword argument 'cursor'")
  ∧ log (dispatch (site := Demo.deployment Demo.small) inspect_route request 1 World0).2
    = [EvConnect Demo.server1; EvClose].
Proof. by vm_compute. Qed.

(** ** Closing the connection *)

(** X3: whatever the wrapped view is and however it ends, a permitted
    request ends with the connection closed, and closing it is the last
    event. *)
Theorem permitted_request_closes_connection {site : Collaborators} (view : View)
    (request : Request) (server_id : Z) (server : RedisServer) (kwargs : Kwargs)
    (w : World) :
  objects_get server_id = Some server →
  may_inspect request server = true →
  ∃ l, log (wrapper view request server_id kwargs w).2 = l ++ [EvClose]
       ∧ conn (wrapper view request server_id kwargs w).2 = Closed.
Proof. apply wrapper_closes_last. Qed.

Lemma permitted_request_closes_connection_witness :
  ∃ l, log (wrapper (site := Demo.deployment Demo.small) Demo.deferred_view
              (Demo.as_admin []) 1 (route_kwargs inspect_route) World0).2 = l ++ [EvClose].
Proof.
  destruct (permitted_request_closes_connection (site := Demo.deployment Demo.small)
              Demo.deferred_view (Demo.as_admin []) 1 Demo.server1
              (route_kwargs inspect_route) World0 eq_refl eq_refl) as (l & Hlog & _).
  by exists l.
Defined.

(** X2: for the routes of the class, a permitted request connects first and
    closes the connection last and only once; the views in between render
    at once, so the response is complete when the connection closes. *)
Theorem served_request_closes_after_view {site : Collaborators} (route : Route)
    (request : Request) (server_id : Z) (server : RedisServer) :
  objects_get server_id = Some server →
  may_inspect request server = true →
  ∃ l, log (dispatch route request server_id World0).2 = EvConnect server :: l ++ [EvClose]
       ∧ Forall (λ e, e ≠ EvClose) l
       ∧ conn (dispatch route request server_id World0).2 = Closed
       ∧ match (dispatch route request server_id World0).1 with
         | Returns r => eager r
         | Raises _ => True
         end.
Proof. apply dispatch_permitted. Qed.

Lemma served_request_closes_after_view_witness :
  ∃ l, log (dispatch (site := Demo.deployment Demo.small) (key_route 0 "present")
              (Demo.as_admin []) 1 World0).2
       = EvConnect Demo.server1 :: l ++ [EvClose]
       ∧ Forall (λ e, e ≠ EvClose) l.
Proof.
  destruct (served_request_closes_after_view (site := Demo.deployment Demo.small)
              (key_route 0 "present") (Demo.as_admin []) 1 Demo.server1 eq_refl eq_refl)
    as (l & Hlog & Hl & _).
  by exists l.
Defined.

(** ** When [inspect] fails *)

Section InspectOutcome.
Context {site : Collaborators}.

(** Something is to be scanned: an explicit database, or a total below the
    threshold over at least one database. *)
Lemma selected_enabled_iff (stats : Stats.t) (db : option Z) :
  Exists (λ d, scan_enabled d = true) (selected stats db)
  ↔ is_Some db
    ∨ (Stats.databases stats ≠ []
       ∧ total_keys (Stats.databases stats) < REDISBOARD_SCAN_COUNT).
Proof.
  destruct db as [db|]; cbn [selected].
  - split; [by eauto|]. intros _. by apply Exists_cons_hd.
  - rewrite Exists_fmap. unfold scan_enabled, compose. cbn.
    split.
    + intros Hex. right. split.
      * intros E. rewrite E in Hex. by apply Exists_nil in Hex.
      * apply Exists_exists in Hex as (item & _ & Hon).
        by apply bool_decide_eq_true in Hon.
    + intros [[? [=]]|[Hne Hlt]].
      destruct (Stats.databases stats) as [|item l]; [done|].
      apply Exists_cons_hd. by apply bool_decide_eq_true.
Qed.

(** The call of the scanner is rejected exactly for a query string with a
    parameter named [cursor] or with a name the scanner does not take. *)
Lemma scan_call_error_Some (q : QueryDict) :
  is_Some (scan_call_error (QueryDict_dict q))
  ↔ "cursor" ∈ q.*1 ∨ Exists (λ name, scan_takes name = false) q.*1.
Proof.
  rewrite <- not_eq_None_Some, scan_call_error_None. split.
  - intros Hnot. destruct (decide ("cursor" ∈ q.*1)) as [|Hout]; [by left|].
    right. destruct (decide (Forall (λ name, scan_takes name = true) q.*1)) as [Hall|Hex].
    + destruct Hnot. done.
    + apply not_Forall_Exists in Hex; [|apply _].
      eapply Exists_impl; [exact Hex|]. cbn. intros name. by destruct (scan_takes name).
  - intros [Hin|Hex] [Hout Hall]; [done|].
    apply Exists_exists in Hex as (name & Hname & Hno).
    rewrite Forall_forall in Hall. specialize (Hall name Hname). congruence.
Qed.

Lemma inspect_cases request server db cursor w :
  (Stats.available (server_stats server) = true
   ∧ Exists (λ d, scan_enabled d = true) (selected (server_stats server) db)
   ∧ ∃ e, scan_call_error (QueryDict_dict (GET request)) = Some e
          ∧ inspect request server db cursor w
            = (Raises e, with_heap (heap w ++ selected (server_stats server) db) w))
  ∨ (¬ (Stats.available (server_stats server) = true
        ∧ Exists (λ d, scan_enabled d = true) (selected (server_stats server) db)
        ∧ is_Some (scan_call_error (QueryDict_dict (GET request))))
     ∧ ∃ c w', inspect request server db cursor w
               = (Returns (HttpResponse "redisboard/inspect.html" (InspectCtx c)), w')
               ∧ ∃ l, log w' = log w ++ l ++ [EvRender "redisboard/inspect.html"]
                      ∧ conn w' = conn w).
Proof.
  destruct (Stats.available (server_stats server)) eqn:Hup; last first.
  { right. split; [by intros [? _]|].
    rewrite inspect_unavailable by done. eexists _, _. split; [reflexivity|].
    by exists []. }
  destruct (decide (Exists (λ d, scan_enabled d = true)
                      (selected (server_stats server) db))) as [Hon|Hoff].
  - destruct (scan_call_error (QueryDict_dict (GET request))) as [e|] eqn:Hcall.
    + left. do 2 (split; [done|]). exists e. split; [done|].
      by apply inspect_clash.
    + right. split; [by intros (_ & _ & [? [=]])|].
      rewrite inspect_run; [|done|by apply Forall_forall].
      eexists _, _. split; [reflexivity|]. eexists. split; reflexivity.
  - right. split; [by intros (_ & ? & _)|].
    rewrite inspect_run; [|done|].
    2:{ apply Forall_forall. intros d Hd Hon. destruct Hoff.
        apply Exists_exists. eauto. }
    eexists _, _. split; [reflexivity|]. eexists. split; reflexivity.
Qed.
End InspectOutcome.

(** X6: [inspect] fails exactly when something is to be scanned (the stats
    are available and there is an explicit database, or a total below the
    threshold over at least one database) and the query string has a
    parameter that the call of the scanner rejects: one named [cursor], or
    one with a name the scanner does not take.  It then raises [TypeError],
    the one of the repeated keyword whenever there is a parameter named
    [cursor], and has logged nothing.  In every other case, the scanner
    answering each call, it returns its rendered page, rendering last, and
    leaves the connection as it was. *)
Theorem inspect_fails_exactly_on_rejected_keywords {site : Collaborators}
    (request : Request) (server : RedisServer) (db : option Z) (cursor : Z) (w : World) :
  let stats := server_stats server in
  let names := (GET request).*1 in
  let to_scan := Stats.available stats = true
                 ∧ (is_Some db
                    ∨ (Stats.databases stats ≠ []
                       ∧ total_keys (Stats.databases stats) < REDISBOARD_SCAN_COUNT)) in
  let rejected := "cursor" ∈ names ∨ Exists (λ name, scan_takes name = false) names in
  let run := inspect request server db cursor w in
  (to_scan ∧ rejected ↔ ∃ e, run.1 = Raises e)
  ∧ (to_scan ∧ rejected →
     (∃ msg, run.1 = Raises (TypeError msg)) ∧ log run.2 = log w)
  ∧ (to_scan ∧ "cursor" ∈ names →
     run.1 = Raises (TypeError "got multiple values for keyword argument 'cursor'"))
  ∧ (¬ (to_scan ∧ rejected) →
     ∃ c l, run.1 = Returns (HttpResponse "redisboard/inspect.html" (InspectCtx c))
            ∧ log run.2 = log w ++ l ++ [EvRender "redisboard/inspect.html"]
            ∧ conn run.2 = conn w).
Proof.
  intros stats names to_scan rejected run.
  assert (Hfail : to_scan ∧ rejected
                  ↔ Stats.available stats = true
                    ∧ Exists (λ d, scan_enabled d = true) (selected stats db)
                    ∧ is_Some (scan_call_error (QueryDict_dict (GET request)))).
  { unfold to_scan, rejected, names.
    rewrite selected_enabled_iff, scan_call_error_Some.
    split; [intros [[? ?] ?]|intros (? & ? & ?)]; done. }
  destruct (inspect_cases request server db cursor w)
    as [(Hup & Hon & e & Hcall & Hrun)|(Hnot & c & w' & Hrun & l & Hlog & Hconn)];
    unfold run; rewrite Hrun; cbn [fst snd].
  - assert (to_scan ∧ rejected) as Hc by (apply Hfail; by rewrite Hcall).
    split; [split; [by eauto|done]|]. split; [|split; [|done]].
    + intros _. split; [|done].
      destruct (scan_call_error_TypeError _ _ Hcall) as [msg ->]. by exists msg.
    + intros [_ Hin]. apply scan_call_error_cursor in Hin. congruence.
  - assert (¬ (to_scan ∧ rejected)) as Hc by (by rewrite Hfail).
    split; [split; [done|by intros [e ?]]|]. split; [done|].
    split; [intros [? ?]; destruct Hc; split; [done|by left]|].
    intros _. by exists c, l.
Qed.

Lemma inspect_fails_exactly_on_rejected_keywords_witness :
  (inspect (site := Demo.deployment Demo.single) (Demo.as_admin [("cursor", "7")])
     Demo.server1 (Some 3) 0 World0).1
  = Raises (TypeError "got multiple values for keyword argument 'cursor'")
  ∧ (∃ msg, (inspect (site := Demo.deployment Demo.single)
               (Demo.as_admin [("match", "a*"); ("count", "10")])
               Demo.server1 None 0 World0).1
            = Raises (TypeError msg))
  ∧ ∃ c l, (inspect (site := Demo.deployment Demo.large) (Demo.as_admin [("count", "10")])
              Demo.server1 None 0 World0).1
           = Returns (HttpResponse "redisboard/inspect.html" (InspectCtx c))
           ∧ log (inspect (site := Demo.deployment Demo.large)
                    (Demo.as_admin [("count", "10")]) Demo.server1 None 0 World0).2
             = [] ++ l ++ [EvRender "redisboard/inspect.html"].
Proof.
  split; [|split].
  - destruct (inspect_fails_exactly_on_rejected_keywords
                (site := Demo.deployment Demo.single)
                (Demo.as_admin [("cursor", "7")]) Demo.server1 (Some 3) 0 World0)
      as (_ & _ & Hcursor & _).
    apply Hcursor. split; [|apply list_elem_of_here].
    split; [reflexivity|]. left. by eexists.
  - destruct (inspect_fails_exactly_on_rejected_keywords
                (site := Demo.deployment Demo.single)
                (Demo.as_admin [("match", "a*"); ("count", "10")]) Demo.server1 None 0 World0)
      as (_ & Hfail & _).
    apply Hfail. split.
    + split; [reflexivity|]. right. split; [discriminate|]. by vm_compute.
    + right. apply Exists_cons_tl, Exists_cons_hd. reflexivity.
  - destruct (inspect_fails_exactly_on_rejected_keywords (site := Demo.deployment Demo.large)
                (Demo.as_admin [("count", "10")]) Demo.server1 None 0 World0)
      as (_ & _ & _ & Hok).
    destruct Hok as (c & l & Hrun & Hlog & _).
    + intros [[_ [[? [=]]|[_ Hlt]]] _]. by vm_compute in Hlt.
    + by exists c, l.
Defined.

(** ** What a request can end in *)

Section Outcomes.
Context {site : Collaborators}.

Lemma inspect_key_view_outcome request server db key cursor count w :
  match (inspect_key request server db key cursor count w).1 with
  | Returns (HttpResponse template _) =>
      template = "redisboard/inspect_key.html"
      ∧ ∃ l, log (inspect_key request server db key cursor count w).2
             = log w ++ l ++ [EvRender template]
  | Returns (HttpResponseNotFound content) =>
      content = "Key is gone."
      ∧ ∃ l, log (inspect_key request server db key cursor count w).2 = log w ++ l
             ∧ ∀ template, EvRender template ∉ l
  | Returns (HttpResponseForbidden _) | Returns (TemplateResponse _ _ _ _) => False
  | Raises _ => False
  end.
Proof.
  rewrite inspect_key_run. cbv zeta.
  destruct (connection_exists _ _); cbn [fst snd log with_log].
  - split; [done|].
    exists (connect_events w server
            ++ [EvExists (unquote_to_bytes key); EvKeys db [unquote_to_bytes key];
                EvValue db (unquote_to_bytes key) cursor count]).
    rewrite <- !app_assoc. reflexivity.
  - split; [done|].
    exists (connect_events w server ++ [EvExists (unquote_to_bytes key)]).
    split; [reflexivity|].
    intros template [Hin|Hin]%elem_of_app.
    + unfold connect_events in Hin. destruct (conn w).
      * apply list_elem_of_singleton in Hin. discriminate.
      * by apply elem_of_nil in Hin.
      * by apply elem_of_nil in Hin.
    + apply list_elem_of_singleton in Hin. discriminate.
Qed.

Lemma inspect_outcome request server db cursor w :
  match (inspect request server db cursor w).1 with
  | Returns (HttpResponse template _) =>
      template = "redisboard/inspect.html"
      ∧ ∃ l, log (inspect request server db cursor w).2
             = log w ++ l ++ [EvRender template]
  | Returns _ => False
  | Raises (TypeError _) =>
      "cursor" ∈ (GET request).*1
      ∨ Exists (λ name, scan_takes name = false) (GET request).*1
  | Raises _ => False
  end.
Proof.
  destruct (inspect_cases request server db cursor w)
    as [(_ & _ & e & Hcall & ->)|(_ & c' & w' & -> & l & Hlog & _)].
  - destruct (scan_call_error_TypeError _ _ Hcall) as [msg ->]. cbn [fst].
    apply scan_call_error_Some. by rewrite Hcall.
  - cbn [fst snd]. split; [done|]. by exists l.
Qed.

Lemma route_view_outcome route request server w :
  match (route_view route request server (route_kwargs route) w).1 with
  | Returns (HttpResponse template _) =>
      template = route_template route
      ∧ ∃ l, log (route_view route request server (route_kwargs route) w).2
             = log w ++ l ++ [EvRender template]
  | Returns (HttpResponseNotFound content) =>
      content = "Key is gone." ∧ route_template route = "redisboard/inspect_key.html"
      ∧ ∃ l, log (route_view route request server (route_kwargs route) w).2 = log w ++ l
             ∧ ∀ template, EvRender template ∉ l
  | Returns (HttpResponseForbidden _) | Returns (TemplateResponse _ _ _ _) => False
  | Raises (TypeError _) =>
      ("cursor" ∈ (GET request).*1
       ∨ Exists (λ name, scan_takes name = false) (GET request).*1)
      ∧ route_template route = "redisboard/inspect.html"
  | Raises _ => False
  end.
Proof.
  destruct route as [|db|db key|db cursor|db cursor key|db cursor count key];
    cbn [route_view route_kwargs route_template inspect_view inspect_key_view
         kw_db kw_key kw_cursor kw_count default].
  1,2,4: match goal with |- context [inspect ?r ?s ?d ?c ?w] =>
         pose proof (inspect_outcome r s d c w) as Hout;
         destruct (inspect r s d c w) as [[[]|[]] w']; cbn [fst snd] in *; try done
       end.
  all: match goal with |- context [inspect_key ?r ?s ?d ?k ?c ?n ?w] =>
         pose proof (inspect_key_view_outcome r s d k c n w) as Hout;
         destruct (inspect_key r s d k c n w) as [[[]|[]] w']; cbn [fst snd] in *;
         try done
       end.
  all: by destruct Hout.
Qed.
End Outcomes.

(** X7: what a request to one of the six routes can end in, the store and
    the renderer answering every call.  A rendered page of the route's own
    template; "forbidden" or, on a key route, "not found", each with its
    fixed text; [Http404] when the server does not exist; or, on an inspect
    route, the [TypeError] of a query parameter that the call of the scanner
    rejects: one named [cursor] or one with a name the scanner does not
    take.  The code of the class raises nothing else: the routes pass their
    views exactly the keyword arguments they accept, and no reference of a
    view dangles. *)
Theorem dispatch_outcomes {site : Collaborators} (route : Route) (request : Request)
    (server_id : Z) (w : World) :
  match (dispatch route request server_id w).1 with
  | Returns (HttpResponse template _) => template = route_template route
  | Returns (HttpResponseForbidden content) => content = "You can't inspect this server."
  | Returns (HttpResponseNotFound content) =>
      content = "Key is gone." ∧ route_template route = "redisboard/inspect_key.html"
  | Returns (TemplateResponse _ _ _ _) => False
  | Raises Http404 => objects_get server_id = None
  | Raises (TypeError _) =>
      ("cursor" ∈ (GET request).*1
       ∨ Exists (λ name, scan_takes name = false) (GET request).*1)
      ∧ route_template route = "redisboard/inspect.html"
  | Raises (AttributeError _) | Raises (KeyError _) | Raises ReferenceError => False
  end.
Proof.
  unfold dispatch, wrap.
  destruct (objects_get server_id) as [server|] eqn:Hserver.
  - destruct (may_inspect request server) eqn:Hgate.
    + rewrite (wrapper_eager _ _ _ server) by auto using view_inv_route_view.
      cbn [fst].
      pose proof (route_view_outcome route request server (connected server w)) as Hout.
      destruct (route_view route request server (route_kwargs route)
                  (connected server w)).1 as [[]|[]]; try done.
      * by destruct Hout.
      * by destruct Hout as (? & ? & _).
    + by rewrite (wrapper_denied _ _ _ server).
  - by rewrite wrapper_missing.
Qed.

(** C6: on every route of the class, a permitted request connects first and
    closes the connection last and exactly once, whether the view returns or
    raises: nothing closes it while the view runs.  The response a view
    returns is complete by then: it is never a [TemplateResponse], so no
    rendering is deferred and rendering it afterwards does nothing; a page is
    rendered by the view itself, as its last step before the connection is
    closed, and "not found" is answered after the existence check alone. *)
Theorem connection_closed_after_response {site : Collaborators} (route : Route)
    (request : Request) (server_id : Z) (server : RedisServer) :
  objects_get server_id = Some server →
  may_inspect request server = true →
  let run := dispatch route request server_id World0 in
  ∃ l, log run.2 = EvConnect server :: l ++ [EvClose]
       ∧ Forall (λ e, e ≠ EvClose) l
       ∧ conn run.2 = Closed
       ∧ match run.1 with
         | Returns response =>
             isinstance_TemplateResponse response = false
             ∧ response_render response run.2 = (Returns response, run.2)
             ∧ match response with
               | HttpResponse template _ => ∃ l', l = l' ++ [EvRender template]
               | _ => ∀ template, EvRender template ∉ l
               end
         | Raises _ => True
         end.
Proof.
  intros Hserver Hgate run. unfold run, dispatch, wrap.
  rewrite (wrapper_eager _ _ _ server) by auto using view_inv_route_view.
  destruct (view_inv_route_view route request server (connected server World0))
    as [(l & El & Fl) _].
  pose proof (route_view_outcome route request server (connected server World0)) as Hout.
  exists l. cbn [fst snd]. unfold closed. cbn [log conn with_conn with_log].
  rewrite El. do 3 (split; [done|]).
  destruct (route_view route request server (route_kwargs route)
              (connected server World0)).1 as [[template c|?|?|]|]; try done.
  - do 2 (split; [done|]). destruct Hout as (_ & l' & Hl'). exists l'.
    rewrite El in Hl'. by apply app_inv_head in Hl'.
  - do 2 (split; [done|]). destruct Hout as (_ & _ & l' & Hl' & Hno).
    rewrite El in Hl'. apply app_inv_head in Hl'. by subst l'.
Qed.

Lemma connection_closed_after_response_witness :
  ∃ l, log (dispatch (site := Demo.deployment Demo.small) inspect_route
              (Demo.as_admin [("match", "user:*")]) 1 World0).2
       = EvConnect Demo.server1 :: l ++ [EvClose]
       ∧ l = [EvScan 0 0 {[ "match" := "user:*" ]};
              EvScan 1 0 {[ "match" := "user:*" ]};
              EvRender "redisboard/inspect.html"]
       ∧ conn (dispatch (site := Demo.deployment Demo.small) inspect_route
                 (Demo.as_admin [("match", "user:*")]) 1 World0).2 = Closed.
Proof.
  destruct (connection_closed_after_response (site := Demo.deployment Demo.small)
              inspect_route (Demo.as_admin [("match", "user:*")]) 1 Demo.server1
              eq_refl eq_refl) as (l & Hlog & _ & Hconn & _).
  exists l. split; [exact Hlog|]. split; [|exact Hconn].
  assert (Hrun : log (dispatch (site := Demo.deployment Demo.small) inspect_route
                        (Demo.as_admin [("match", "user:*")]) 1 World0).2
                 = EvConnect Demo.server1
                   :: [EvScan 0 0 {[ "match" := "user:*" ]};
                       EvScan 1 0 {[ "match" := "user:*" ]};
                       EvRender "redisboard/inspect.html"] ++ [EvClose]).
  { by vm_compute. }
  rewrite Hrun in Hlog. injection Hlog as Hl.
  apply (app_inj_tail [_; _; _] l) in Hl as [Hl _]. by rewrite <- Hl.
Defined.

(** X8: the wrapper passes on what the wrapped view ends in.  A response
    that is not a [TemplateResponse] is returned as it is and an exception is
    raised again, in both cases after the connection was closed. *)
Theorem wrapper_passes_outcome {site : Collaborators} (view : View)
    (request : Request) (server_id : Z) (server : RedisServer) (kwargs : Kwargs)
    (w w1 : World) (out : Outcome Response) :
  objects_get server_id = Some server →
  may_inspect request server = true →
  view request server kwargs (connected server w) = (out, w1) →
  match out with
  | Returns response => isinstance_TemplateResponse response = false
  | Raises _ => True
  end →
  wrapper view request server_id kwargs w = (out, closed w1).
Proof.
  intros Hserver Hgate Hview Hout. rewrite (wrapper_permitted _ _ _ server) by done.
  rewrite bind_run, Hview. destruct out as [response|e]; [|done].
  by rewrite Hout.
Qed.

Lemma wrapper_passes_outcome_witness :
  dispatch (site := Demo.deployment Demo.small) inspect_route
    (Demo.as_admin [("cursor", "5")]) 1 World0
  = (Raises (TypeError "got multiple values for keyword argument 'cursor'"),
     closed (with_heap [DBInfo.new 0 (Demo.keys 50) (Flag true);
                        DBInfo.new 1 (Demo.keys 30) (Flag true)]
               (connected Demo.server1 World0))).
Proof.
  apply (wrapper_passes_outcome (site := Demo.deployment Demo.small) inspect_view
           (Demo.as_admin [("cursor", "5")]) 1 Demo.server1 (route_kwargs inspect_route)
           World0 _ _ eq_refl eq_refl); [by vm_compute|exact I].
Defined.

(** X18: the page of a key that exists.  The store is asked, in this order
    and once each, whether the key exists, for the statistics of this one key
    and for a page of its value at the cursor and with the count of the
    route; then the page is rendered, showing the decoded key, the database
    and the cursor of the route. *)
Theorem key_detail_found {site : Collaborators} (request : Request)
    (server : RedisServer) (db : Z) (key : string) (cursor count : Z) (w : World) :
  connection_exists server (unquote_to_bytes key) = true →
  let k := unquote_to_bytes key in
  ∃ c w', inspect_key request server db key cursor count w
          = (Returns (HttpResponse "redisboard/inspect_key.html" (InspectKeyCtx c)), w')
          ∧ log w' = log w ++ connect_events w server
                     ++ [EvExists k; EvKeys db [k]; EvValue db k cursor count;
                         EvRender "redisboard/inspect_key.html"]
          ∧ ctx_key c = decoder_key server k
          ∧ ctx_key_stats c = display_keys server db [k]
          ∧ ctx_scan c = display_value server db k cursor count
          ∧ ctx_db_id c = db ∧ ctx_db_cursor c = cursor
          ∧ heap w' = heap w.
Proof.
  intros Hfound k. subst k. rewrite inspect_key_run. cbv zeta. rewrite Hfound.
  eexists _, _. split; [reflexivity|]. cbn. rewrite <- !app_assoc. done.
Qed.

Lemma key_detail_found_witness :
  ∃ c w', inspect_key (site := Demo.deployment Demo.small) (Demo.as_admin [])
            Demo.server1 2 "present" 4 10 World0
          = (Returns (HttpResponse "redisboard/inspect_key.html" (InspectKeyCtx c)), w')
          ∧ log w' = [EvConnect Demo.server1;
                      EvExists (list_byte_of_string "present");
                      EvKeys 2 [list_byte_of_string "present"];
                      EvValue 2 (list_byte_of_string "present") 4 10;
                      EvRender "redisboard/inspect_key.html"].
Proof.
  destruct (key_detail_found (site := Demo.deployment Demo.small) (Demo.as_admin [])
              Demo.server1 2 "present" 4 10 World0 eq_refl)
    as (c & w' & Hrun & Hlog & _).
  by exists c, w'.
Defined.

(** ** The clean-up callback of the wrapper *)

(** Callbacks queued before the wrapper's close the connection or fail as
    the wrapper's does; the wrapper's own, last in the queue, fails. *)
Lemma callbacks_fail (response : Response) (callbacks : list Callback) (w : World) :
  ∃ w', for_each (callbacks ++ [partial_cleanup_connection Connection_close])
          (λ callback,
             match callback with
             | partial_cleanup_connection connection =>
                 cleanup_connection response connection
             end) w
        = (Raises (AttributeError "close"), w')
        ∧ ∃ l, log w' = log w ++ l.
Proof.
  revert w. induction callbacks as [|[[]] callbacks IH]; intros w.
  - exists w. split; [reflexivity|]. exists []. by rewrite app_nil_r.
  - destruct (IH (with_conn Closed (with_log (log w ++ [EvClose]) w)))
      as (w' & Hrun & l & Hlog).
    exists w'. split.
    + cbn [app for_each]. erewrite bind_returns; [exact Hrun|reflexivity].
    + exists (EvClose :: l). rewrite Hlog. cbn. by rewrite <- app_assoc.
  - exists w. split; [reflexivity|]. exists []. by rewrite app_nil_r.
Qed.

(** X9: a wrapped view that returns a [TemplateResponse] never gets its
    connection cleaned up by the callback.  If the response is rendered
    already, the callback runs at once and the request fails with
    [AttributeError]; if it is not, the wrapper returns it with the callback
    queued last, the connection being closed by then, and rendering the
    response later renders the template and then fails with
    [AttributeError]. *)
Theorem template_response_cleanup_fails {site : Collaborators} (view : View)
    (request : Request) (server_id : Z) (server : RedisServer) (kwargs : Kwargs)
    (template : string) (context : Context) (rendered : bool)
    (callbacks : list Callback) (w w1 : World) :
  objects_get server_id = Some server →
  may_inspect request server = true →
  view request server kwargs (connected server w)
  = (Returns (TemplateResponse template context rendered callbacks), w1) →
  if rendered
  then wrapper view request server_id kwargs w
       = (Raises (AttributeError "close"), closed w1)
  else
    let response := TemplateResponse template context false
                      (callbacks ++ [partial_cleanup_connection Connection_close]) in
    wrapper view request server_id kwargs w = (Returns response, closed w1)
    ∧ conn (closed w1) = Closed
    ∧ ∀ w2, ∃ w3 l, response_render response w2 = (Raises (AttributeError "close"), w3)
                    ∧ log w3 = log w2 ++ EvRender template :: l.
Proof.
  intros Hserver Hgate Hview. rewrite (wrapper_permitted _ _ _ server) by done.
  erewrite bind_returns by exact Hview. destruct rendered; [reflexivity|].
  cbv zeta. split; [reflexivity|]. split; [reflexivity|].
  intros w2. cbn [response_render].
  destruct (callbacks_fail
              (TemplateResponse template context false
                 (callbacks ++ [partial_cleanup_connection Connection_close]))
              callbacks (with_log (log w2 ++ [EvRender template]) w2))
    as (w3 & Hrun & l & Hlog).
  exists w3, l. split.
  - erewrite bind_returns by reflexivity.
    erewrite bind_raises; [reflexivity|]. exact Hrun.
  - rewrite Hlog. cbn. by rewrite <- app_assoc.
Qed.

Lemma template_response_cleanup_fails_witness :
  ∃ response w1,
    wrapper (site := Demo.deployment Demo.small) Demo.deferred_view
      (Demo.as_admin []) 1 (route_kwargs inspect_route) World0
    = (Returns response, w1)
    ∧ conn w1 = Closed
    ∧ ∃ w3 l, response_render response w1 = (Raises (AttributeError "close"), w3)
              ∧ log w3 = log w1 ++ EvRender "redisboard/inspect.html" :: l.
Proof.
  destruct (template_response_cleanup_fails (site := Demo.deployment Demo.small)
              Demo.deferred_view (Demo.as_admin []) 1 Demo.server1
              (route_kwargs inspect_route) _ _ false [] World0 _
              eq_refl eq_refl eq_refl) as (Hrun & Hconn & Hrender).
  eexists _, _. split; [exact Hrun|]. split; [exact Hconn|]. apply Hrender.
Defined.

(** ** What the scanner is given *)

(** Of the values a name is given in the query string, the last one is its
    entry in the dictionary. *)
Lemma QueryDict_dict_last_wins (q1 q2 : QueryDict) (k v : string) :
  k ∉ q2.*1 → QueryDict_dict (q1 ++ (k, v) :: q2) !! k = Some v.
Proof.
  induction q2 as [|[k' v'] q2 IH] using rev_ind; intros Hk.
  - apply QueryDict_dict_last.
  - rewrite fmap_app, not_elem_of_app in Hk. destruct Hk as [Hk Hk'].
    cbn in Hk'. rewrite list_elem_of_singleton in Hk'.
    rewrite app_comm_cons, app_assoc, QueryDict_dict_snoc.
    rewrite lookup_insert_ne by congruence. by apply IH.
Qed.

(** X10: a query parameter given several times reaches the scanner once,
    with the last of its values: when no parameter is named [cursor] and the
    scanner takes every name of the query string, every database that is
    scanned is scanned with that value for the name. *)
Theorem repeated_parameter_last_value {site : Collaborators} (request : Request)
    (server : RedisServer) (db : option Z) (cursor : Z) (w : World)
    (q1 q2 : QueryDict) (k v : string) :
  Stats.available (server_stats server) = true →
  "cursor" ∉ (GET request).*1 →
  Forall (λ name, scan_takes name = true) (GET request).*1 →
  GET request = q1 ++ (k, v) :: q2 →
  k ∉ q2.*1 →
  ∀ d, d ∈ selected (server_stats server) db → scan_enabled d = true →
       ∃ filters, EvScan (DBInfo.id d) cursor filters
                  ∈ log (inspect request server db cursor w).2
                  ∧ filters !! k = Some v.
Proof.
  intros Hup Hkw Htaken Hq Hk d Hd Hon.
  assert (Hok : scan_call_error (QueryDict_dict (GET request)) = None).
  { by apply scan_call_error_None. }
  exists (QueryDict_dict (GET request)). split.
  - rewrite inspect_run; [|done|by apply Forall_forall]. cbn [snd log].
    apply elem_of_app. right. apply elem_of_app. left. unfold scan_events.
    apply (list_elem_of_fmap_2
             (λ d, EvScan (DBInfo.id d) cursor (QueryDict_dict (GET request)))).
    by apply list_elem_of_filter.
  - rewrite Hq. by apply QueryDict_dict_last_wins.
Qed.

Lemma repeated_parameter_last_value_witness :
  ∃ filters, EvScan 0 0 filters
             ∈ log (inspect (site := Demo.deployment Demo.single)
                      (Demo.as_admin [("match", "a*"); ("match", "b*")])
                      Demo.server1 None 0 World0).2
             ∧ filters !! "match" = Some "b*".
Proof.
  apply (repeated_parameter_last_value (site := Demo.deployment Demo.single)
           (Demo.as_admin [("match", "a*"); ("match", "b*")])
           Demo.server1 None 0 World0 [("match", "a*")] []
           "match" "b*" eq_refl)
    with (d := DBInfo.new 0 (Demo.keys 10) (Flag true)).
  - apply (bool_decide_unpack _). by vm_compute.
  - constructor; [reflexivity|]. constructor; [reflexivity|constructor].
  - reflexivity.
  - apply not_elem_of_nil.
  - apply list_elem_of_here.
  - reflexivity.
Defined.

(** X11: with an explicit database, no query parameter named [cursor] and
    a scanner that takes every name of the query string, the scanner is
    called exactly once, for that database, whatever the threshold, the total
    and the other databases are; the page lists that one summary, which is
    also the active one, with the page of the scan and the cursor of the
    route.  A database the stats do not list is scanned all the same and
    shown with 0 keys. *)
Theorem explicit_database_scanned_once {site : Collaborators} (request : Request)
    (server : RedisServer) (db cursor : Z) (w : World) :
  Stats.available (server_stats server) = true →
  "cursor" ∉ (GET request).*1 →
  Forall (λ name, scan_takes name = true) (GET request).*1 →
  let kwargs := QueryDict_dict (GET request) in
  let details := default {[ "keys" := 0 ]}
                   (dict_get db (Stats.databases (server_stats server))) in
  let d := {| DBInfo.id := db; DBInfo.details := details;
              DBInfo.scan := Page (display_scan server db cursor kwargs);
              DBInfo.cursor := Some cursor |} in
  ∃ c w', inspect request server (Some db) cursor w
          = (Returns (HttpResponse "redisboard/inspect.html" (InspectCtx c)), w')
          ∧ ctx_databases c = [d]
          ∧ ctx_active c = Some d
          ∧ log w' = log w ++ [EvScan db cursor kwargs; EvRender "redisboard/inspect.html"]
          ∧ (dict_get db (Stats.databases (server_stats server)) = None →
             keys_of (DBInfo.details d) = 0).
Proof.
  intros Hup Hkw Htaken kwargs details d.
  assert (Hok : scan_call_error (QueryDict_dict (GET request)) = None).
  { by apply scan_call_error_None. }
  rewrite inspect_run; [|done|by apply Forall_forall].
  eexists _, _. split; [reflexivity|].
  repeat split. subst d details. cbn. by intros ->.
Qed.

Lemma explicit_database_scanned_once_witness :
  ∃ c w', inspect (site := Demo.deployment Demo.large) (Demo.as_admin [("match", "a*")])
            Demo.server1 (Some 5) 0 World0
          = (Returns (HttpResponse "redisboard/inspect.html" (InspectCtx c)), w')
          ∧ log w' = [EvScan 5 0 {[ "match" := "a*" ]}; EvRender "redisboard/inspect.html"].
Proof.
  destruct (explicit_database_scanned_once (site := Demo.deployment Demo.large)
              (Demo.as_admin [("match", "a*")]) Demo.server1 5 0 World0 eq_refl)
    as (c & w' & Hrun & _ & _ & Hlog & _).
  { cbn. intros ?%list_elem_of_singleton. discriminate. }
  { constructor; [reflexivity|constructor]. }
  exists c, w'. split; [exact Hrun|]. rewrite Hlog. by vm_compute.
Defined.

(** ** Some values of the functions of [urllib.parse] *)

Example unquote_1 : Urllib.unquote_to_bytes "abc%20def" = list_byte_of_string "abc def".
Proof. reflexivity. Qed.
Example unquote_2 : Urllib.unquote_to_bytes "a%zzb%4%41%" = list_byte_of_string "a%zzb%4A%".
Proof. reflexivity. Qed.
Example quote_1 : Urllib.quote (list_byte_of_string "user:1/a b%") = "user%3A1/a%20b%25".
Proof. reflexivity. Qed.

(** ** Percent-decoding, byte by byte *)

Lemma byte_eqb_true (x y : Byte.byte) : Byte.eqb x y = true ↔ x = y.
Proof. split; [apply Strings.Byte.byte_dec_bl|apply Strings.Byte.byte_dec_lb]. Qed.

Lemma byte_eqb_false (x y : Byte.byte) : Byte.eqb x y = false ↔ x ≠ y.
Proof.
  rewrite <- byte_eqb_true. destruct (Byte.eqb x y); split; congruence.
Qed.

#[global] Instance byte_eq_dec : EqDecision Byte.byte.
Proof.
  intros x y. destruct (Byte.eqb x y) eqn:E.
  - left. by apply byte_eqb_true.
  - right. by apply byte_eqb_false.
Defined.

Lemma split_nonempty (sep : Byte.byte) (s : bytes) : Urllib.split sep s ≠ [].
Proof.
  destruct s as [|c s]; cbn; [done|].
  destruct (Byte.eqb c sep); [done|]. by destruct (Urllib.split sep s).
Qed.

Lemma split_cons_sep (sep : Byte.byte) (s : bytes) :
  Urllib.split sep (sep :: s) = [] :: Urllib.split sep s.
Proof. cbn. by rewrite (proj2 (byte_eqb_true sep sep) eq_refl). Qed.

Lemma split_cons_other (sep c : Byte.byte) (s : bytes) :
  c ≠ sep →
  ∃ bit bits, Urllib.split sep s = bit :: bits
              ∧ Urllib.split sep (c :: s) = (c :: bit) :: bits.
Proof.
  intros Hc%byte_eqb_false. cbn. rewrite Hc.
  pose proof (split_nonempty sep s) as Hne.
  destruct (Urllib.split sep s) as [|bit bits]; [done|]. by exists bit, bits.
Qed.

(** Without a separator there is one bit, the string itself. *)
Lemma split_single (sep : Byte.byte) (s bit : bytes) :
  Urllib.split sep s = [bit] → bit = s.
Proof.
  revert bit. induction s as [|c s IH]; intros bit.
  - by intros [= <-].
  - destruct (decide (c = sep)) as [->|Hc].
    + rewrite split_cons_sep. intros [= _ E]. by destruct (split_nonempty sep s).
    + destruct (split_cons_other sep c s Hc) as (bit' & bits & E & ->).
      intros [= <- ->]. by rewrite (IH bit').
Qed.

Lemma foldl_unquote_item (p res : bytes) (items : list bytes) :
  foldl Urllib.unquote_item (p ++ res) items = p ++ foldl Urllib.unquote_item res items.
Proof.
  revert res. induction items as [|item items IH]; intros res; [done|].
  cbn [foldl]. unfold Urllib.unquote_item at 2 4.
  destruct (Urllib.hextobyte item); rewrite <- app_assoc; apply IH.
Qed.

(** The decoder as one pass over the bits. *)
Lemma unquote_impl_bits (s bit : bytes) (items : list bytes) :
  Urllib.split Urllib.percent s = bit :: items →
  Urllib.unquote_impl s = foldl Urllib.unquote_item bit items.
Proof.
  intros E. unfold Urllib.unquote_impl. rewrite E.
  destruct items; [|done]. cbn. symmetry. by eapply split_single.
Qed.

(** The decoder, read from left to right: a byte other than [%] stands for
    itself; [%] followed by two hexadecimal digits stands for the byte they
    denote; any other [%] stands for itself. *)
Lemma unquote_impl_nil : Urllib.unquote_impl [] = [].
Proof. reflexivity. Qed.

Lemma unquote_impl_other (c : Byte.byte) (s : bytes) :
  c ≠ Urllib.percent → Urllib.unquote_impl (c :: s) = c :: Urllib.unquote_impl s.
Proof.
  intros Hc. destruct (split_cons_other Urllib.percent c s Hc) as (bit & bits & E & E').
  rewrite (unquote_impl_bits _ _ _ E), (unquote_impl_bits _ _ _ E').
  apply (foldl_unquote_item [c]).
Qed.

Lemma hexval_not_percent (a : Byte.byte) (x : N) :
  Urllib.hexval a = Some x → a ≠ Urllib.percent.
Proof. by intros E ->. Qed.

(** Whether an item starts with two digits shows on the string it was cut
    from. *)
Lemma hextobyte_first_bit (s bit : bytes) (bits : list bytes) :
  Urllib.split Urllib.percent s = bit :: bits →
  Urllib.hextobyte bit = Urllib.hextobyte s
  ∧ (is_Some (Urllib.hextobyte s) →
     ∃ bit', Urllib.split Urllib.percent (drop 2 s) = bit' :: bits ∧ drop 2 bit = bit').
Proof.
  intros E.
  destruct s as [|a s].
  { cbn in E. injection E as <- <-. split; [done|]. by intros [? [=]]. }
  destruct (decide (a = Urllib.percent)) as [->|Ha].
  { rewrite split_cons_sep in E. injection E as <- <-.
    split; [by destruct s|]. destruct s; by intros [? [=]]. }
  destruct (split_cons_other _ a s Ha) as (bit1 & bits1 & E1 & E1').
  rewrite E1' in E. injection E as <- <-.
  destruct s as [|b s].
  { cbn in E1. injection E1 as <- <-. split; [done|]. by intros [? [=]]. }
  destruct (decide (b = Urllib.percent)) as [->|Hb].
  { rewrite split_cons_sep in E1. injection E1 as <- <-. split.
    - cbn. by destruct (Urllib.hexval a).
    - cbn. destruct (Urllib.hexval a); by intros [? [=]]. }
  destruct (split_cons_other _ b s Hb) as (bit2 & bits2 & E2 & E2').
  rewrite E2' in E1. injection E1 as <- <-.
  split; [done|]. intros _. by exists bit2.
Qed.

Lemma unquote_impl_percent (s : bytes) :
  Urllib.unquote_impl (Urllib.percent :: s)
  = match Urllib.hextobyte s with
    | Some b => b :: Urllib.unquote_impl (drop 2 s)
    | None => Urllib.percent :: Urllib.unquote_impl s
    end.
Proof.
  pose proof (split_nonempty Urllib.percent s) as Hne.
  destruct (Urllib.split Urllib.percent s) as [|bit bits] eqn:E; [done|]. clear Hne.
  rewrite (unquote_impl_bits _ [] (bit :: bits)) by (by rewrite split_cons_sep, E).
  destruct (hextobyte_first_bit s bit bits E) as [Hbit Hdrop].
  cbn [foldl]. unfold Urllib.unquote_item at 2. rewrite Hbit.
  destruct (Urllib.hextobyte s) as [b|] eqn:Hs.
  - destruct Hdrop as (bit' & E' & Hbit'); [by eexists|].
    rewrite (unquote_impl_bits _ _ _ E'), <- Hbit'.
    apply (foldl_unquote_item [b]).
  - rewrite (unquote_impl_bits _ _ _ E).
    apply (foldl_unquote_item [Urllib.percent]).
Qed.

(** ** Encoding a key and decoding it again *)

Lemma safe_not_percent (b : Byte.byte) : Urllib.safe b = true → b ≠ Urllib.percent.
Proof. by intros Hb ->. Qed.

Lemma hextobyte_hexdigits (b : Byte.byte) (s : bytes) :
  Urllib.hextobyte (Urllib.hexdigit (Byte.to_N b / 16)
                    :: Urllib.hexdigit (Byte.to_N b mod 16) :: s) = Some b.
Proof. destruct b; reflexivity. Qed.

Lemma unquote_impl_quoter (b : Byte.byte) (s : bytes) :
  Urllib.unquote_impl (Urllib.quoter b ++ s) = b :: Urllib.unquote_impl s.
Proof.
  unfold Urllib.quoter. destruct (Urllib.safe b) eqn:Hb.
  - apply unquote_impl_other. by apply safe_not_percent.
  - cbn [app]. by rewrite unquote_impl_percent, hextobyte_hexdigits.
Qed.

Lemma unquote_impl_quoted (bs : bytes) :
  Urllib.unquote_impl (concat (Urllib.quoter <$> bs)) = bs.
Proof.
  induction bs as [|b bs IH]; [done|].
  cbn [fmap list_fmap concat]. by rewrite unquote_impl_quoter, IH.
Qed.

(** The shortcut for a string of safe bytes gives what the general case
    gives. *)
Lemma quote_from_bytes_concat (bs : bytes) :
  Urllib.quote_from_bytes bs = string_of_list_byte (concat (Urllib.quoter <$> bs)).
Proof.
  unfold Urllib.quote_from_bytes. destruct bs as [|b bs]; [done|].
  destruct (forallb Urllib.safe (b :: bs)) eqn:Hsafe; [|done].
  f_equal. revert Hsafe. generalize (b :: bs). clear. intros bs.
  induction bs as [|b bs IH]; [done|]. cbn [forallb].
  intros [Hb Hbs]%andb_true_iff. cbn [fmap list_fmap concat].
  unfold Urllib.quoter at 1. rewrite Hb. cbn. f_equal. by apply IH.
Qed.

Lemma unquote_quote (key : bytes) :
  Urllib.unquote_to_bytes (Urllib.quote key) = key.
Proof.
  unfold Urllib.unquote_to_bytes, Urllib.quote.
  by rewrite quote_from_bytes_concat, list_byte_of_string_of_list_byte,
    unquote_impl_quoted.
Qed.

(** X12: decoding what [quote] made of a key gives the key back, for every
    sequence of bytes. *)
Theorem quote_round_trip (key : bytes) :
  Urllib.unquote_to_bytes (Urllib.quote key) = key.
Proof. apply unquote_quote. Qed.

(** X13: [unquote_to_bytes] never fails and reads its argument from left to
    right: a byte other than [%] stands for itself; [%] followed by two
    hexadecimal digits, of either case, stands for the byte they denote and
    the two digits are consumed; a [%] followed by anything else, or by the
    end of the string, is kept as it is. *)
Theorem unquote_left_to_right (s : bytes) :
  Urllib.unquote_impl s
  = match s with
    | [] => []
    | c :: s' =>
        if decide (c = Urllib.percent)
        then match Urllib.hextobyte s' with
             | Some b => b :: Urllib.unquote_impl (drop 2 s')
             | None => Urllib.percent :: Urllib.unquote_impl s'
             end
        else c :: Urllib.unquote_impl s'
    end.
Proof.
  destruct s as [|c s']; [done|]. case_decide as Hc.
  - subst c. apply unquote_impl_percent.
  - by apply unquote_impl_other.
Qed.

(** X14: the encoded key of a page is made of letters, digits, the marks
    [_.-~/] and [%] only, whatever bytes the key holds. *)
Theorem quote_alphabet (key : bytes) :
  Forall (λ c, Urllib.safe c = true ∨ c = Urllib.percent)
         (list_byte_of_string (Urllib.quote key)).
Proof.
  unfold Urllib.quote.
  rewrite quote_from_bytes_concat, list_byte_of_string_of_list_byte.
  induction key as [|b key IH]; [constructor|].
  cbn [fmap list_fmap concat]. apply Forall_app. split; [|exact IH].
  unfold Urllib.quoter. destruct (Urllib.safe b) eqn:Hb.
  - constructor; [by left|constructor].
  - constructor; [by right|].
    constructor; [left; by destruct b|].
    constructor; [left; by destruct b|constructor].
Qed.

(** X15: with the functions of [urllib.parse], the encoded key a key page
    hands out decodes to the key the page is about, and a request whose
    route gives that encoded key does exactly what a request for the original
    key does.  Encoding is canonical: the page of the encoded key hands out
    the same encoded key. *)
Theorem encoded_key_leads_back {site : Collaborators} (request : Request)
    (server : RedisServer) (db : Z) (key : string) (cursor count : Z) (w : World) :
  (∀ s, unquote_to_bytes s = Urllib.unquote_to_bytes s) →
  (∀ bs, quote bs = Urllib.quote bs) →
  connection_exists server (unquote_to_bytes key) = true →
  ∃ c w', inspect_key request server db key cursor count w
          = (Returns (HttpResponse "redisboard/inspect_key.html" (InspectKeyCtx c)), w')
          ∧ unquote_to_bytes (ctx_encoded_key c) = unquote_to_bytes key
          ∧ quote (unquote_to_bytes (ctx_encoded_key c)) = ctx_encoded_key c
          ∧ ∀ request' db' cursor' count' w'',
              inspect_key request' server db' (ctx_encoded_key c) cursor' count' w''
              = inspect_key request' server db' key cursor' count' w''.
Proof.
  intros Hunquote Hquote Hfound.
  rewrite inspect_key_run. cbv zeta. rewrite Hfound.
  eexists _, _. split; [reflexivity|]. cbn [ctx_encoded_key].
  assert (Hback : unquote_to_bytes (quote (unquote_to_bytes key)) = unquote_to_bytes key).
  { by rewrite Hunquote, Hquote, unquote_quote. }
  split; [exact Hback|]. split; [by rewrite Hback|].
  intros request' db' cursor' count' w''.
  rewrite !inspect_key_run. cbv zeta. by rewrite Hback.
Qed.

Lemma encoded_key_leads_back_witness :
  ∃ c w', inspect_key (site := urllib_deployment Demo.small) (Demo.as_admin [])
            Demo.server1 0 "user%3a1%20%" 0 0 World0
          = (Returns (HttpResponse "redisboard/inspect_key.html" (InspectKeyCtx c)), w')
          ∧ ctx_encoded_key c = "user%3A1%20%25"
          ∧ unquote_to_bytes (Collaborators := urllib_deployment Demo.small)
              (ctx_encoded_key c)
            = list_byte_of_string "user:1 %".
Proof.
  destruct (encoded_key_leads_back (site := urllib_deployment Demo.small)
              (Demo.as_admin []) Demo.server1 0 "user%3a1%20%" 0 0 World0)
    as (c & w' & Hrun & Hback & _); [done|done|reflexivity|].
  exists c, w'. split; [exact Hrun|]. split.
  - injection Hrun as <- _. reflexivity.
  - rewrite Hback. reflexivity.
Defined.

(** ** The clean-up of the list of servers *)

Lemma cleanup_object_cleaned (obj : ServerObject) :
  ∃ obj', cleanup_object obj = (Returns tt, obj') ∧ cleaned obj obj'.
Proof.
  unfold cleanup_object, dict_get_connection, cleaned.
  destruct obj as [row [lg [] h]]; cbn; eexists; (split; [reflexivity|]); done.
Qed.

Lemma cleanup_changelist_response_run (queryset : list ServerObject) :
  ∃ queryset',
    cleanup_changelist_response queryset = (Returns tt, queryset')
    ∧ Forall2 cleaned queryset queryset'
    ∧ Forall (λ obj, conn (instance_world obj) ≠ Live) queryset'.
Proof.
  induction queryset as [|obj queryset (queryset' & Hrun & Hall & Hlive)].
  - exists []. repeat split; constructor.
  - destruct (cleanup_object_cleaned obj) as (obj' & Hobj & Hc).
    exists (obj' :: queryset'). cbn [cleanup_changelist_response].
    rewrite Hobj, Hrun. split; [reflexivity|].
    split; [by constructor|].
    constructor; [|done]. destruct Hc as (_ & _ & Hc).
    destruct (conn (instance_world obj)) eqn:E; [by subst; rewrite E| |];
      destruct Hc as [-> _]; done.
Qed.

(** X16: the clean-up of the change list returns normally and keeps the
    objects and their order.  An object without a cached connection is left
    exactly as it was: no connection is created for it.  For every other
    object [close()] is called once on its connection, which is closed
    afterwards.  So no object is left with a live connection. *)
Theorem changelist_cleanup_closes_cached (queryset : list ServerObject) :
  ∃ queryset',
    cleanup_changelist_response queryset = (Returns tt, queryset')
    ∧ Forall2 cleaned queryset queryset'
    ∧ Forall (λ obj, conn (instance_world obj) ≠ Live) queryset'.
Proof. apply cleanup_changelist_response_run. Qed.

(** The objects a query has just built have no cached connection: the
    clean-up goes through them and calls nothing. *)
Lemma cleanup_changelist_response_from_db (rows : list RedisServer) :
  cleanup_changelist_response (from_db <$> rows) = (Returns tt, from_db <$> rows).
Proof.
  induction rows as [|row rows IH]; [reflexivity|].
  cbn [fmap list_fmap cleanup_changelist_response]. fold (from_db <$> rows).
  rewrite IH. reflexivity.
Qed.

Lemma run_changelist_callbacks_cl (callbacks : list ChangelistCallback) (cl : ChangeList) :
  run_changelist_callbacks callbacks (Some cl) = Returns tt.
Proof.
  induction callbacks as [|[] callbacks IH]; [reflexivity|].
  cbn [run_changelist_callbacks call_cleanup_changelist_response].
  by rewrite cleanup_changelist_response_from_db.
Qed.

Lemma run_changelist_callbacks_no_cl (callbacks : list ChangelistCallback) :
  run_changelist_callbacks callbacks None
  = match callbacks with
    | [] => Returns tt
    | _ :: _ => Raises (KeyError "cl")
    end.
Proof. by destruct callbacks as [|[] callbacks]. Qed.

(** X17: the change list and its clean-up.  A template response of the
    parent class that is not rendered yet is returned with the clean-up
    queued behind the callbacks already there; one that is rendered already
    gets the clean-up run at once; any other response is returned as it is.
    When the response is rendered, the clean-up goes through the objects the
    queryset of the change list yields then, which are new and have no
    cached connection: it closes nothing, and the objects of [result_list]
    are left exactly as rendering the rows left them, a connection that
    rendering opened included.  On a template response whose context has no
    ['cl'] the clean-up raises [KeyError]. *)
Theorem changelist_cleanup_misses_rendered_objects
    (super_changelist_view : Request → ChangelistResponse)
    (render_rows : list ServerObject → list ServerObject) (request : Request) :
  match super_changelist_view request with
  | ChangelistTemplateResponse (Some cl) false callbacks =>
      let queued := callbacks ++ [cleanup_changelist_response_callback] in
      let rendered := {| result_list := render_rows (result_list cl);
                         queryset := queryset cl |} in
      changelist_view super_changelist_view request
      = Returns (ChangelistTemplateResponse (Some cl) false queued)
      ∧ changelist_render render_rows (ChangelistTemplateResponse (Some cl) false queued)
        = Returns (ChangelistTemplateResponse (Some rendered) true queued)
      ∧ call_cleanup_changelist_response (Some rendered)
        = (Returns tt, from_db <$> queryset cl)
  | ChangelistTemplateResponse (Some cl) true callbacks =>
      changelist_view super_changelist_view request
      = Returns (ChangelistTemplateResponse (Some cl) true callbacks)
  | ChangelistTemplateResponse None false callbacks =>
      let queued := callbacks ++ [cleanup_changelist_response_callback] in
      changelist_view super_changelist_view request
      = Returns (ChangelistTemplateResponse None false queued)
      ∧ changelist_render render_rows (ChangelistTemplateResponse None false queued)
        = Raises (KeyError "cl")
  | ChangelistTemplateResponse None true callbacks =>
      changelist_view super_changelist_view request = Raises (KeyError "cl")
  | ChangelistOtherResponse content =>
      changelist_view super_changelist_view request
      = Returns (ChangelistOtherResponse content)
  end.
Proof.
  unfold changelist_view.
  destruct (super_changelist_view request) as [[cl|] [] callbacks|content];
    cbn [call_cleanup_changelist_response].
  - by rewrite cleanup_changelist_response_from_db.
  - cbv zeta. split; [reflexivity|]. split.
    + cbn [changelist_render fmap option_fmap option_map].
      by rewrite run_changelist_callbacks_cl.
    + apply cleanup_changelist_response_from_db.
  - reflexivity.
  - cbv zeta. split; [reflexivity|].
    cbn [changelist_render fmap option_fmap option_map].
    rewrite run_changelist_callbacks_no_cl. by destruct callbacks.
  - reflexivity.
Qed.

Lemma changelist_cleanup_misses_rendered_objects_witness :
  ∃ response obj,
    changelist_view (λ _, ChangelistTemplateResponse (Some Demo.cl) false [])
      (Demo.as_admin [])
    = Returns response
    ∧ changelist_render Demo.render_rows response
      = Returns (ChangelistTemplateResponse
                   (Some {| result_list := [obj]; queryset := [Demo.server1] |})
                   true [cleanup_changelist_response_callback])
    ∧ instance obj = Demo.server1
    ∧ conn (instance_world obj) = Live
    ∧ log (instance_world obj) = [EvConnect Demo.server1].
Proof.
  destruct (changelist_cleanup_misses_rendered_objects
              (λ _, ChangelistTemplateResponse (Some Demo.cl) false [])
              Demo.render_rows (Demo.as_admin [])) as (Hview & Hrender & _).
  eexists _, _. split; [exact Hview|]. split; [exact Hrender|].
  split; [reflexivity|]. split; reflexivity.
Defined.
